(** * The OpenAL sound output of Mangle (sound/outputs/openal_out.cpp)

    A shallow embedding of the output back-end: the error gate
    [checkALError], the format negotiation [getALFormat], the
    device/context life cycle of [OpenAL_Factory] and the reference
    counted [OpenAL_Sound].

    The OpenAL library itself is an external collaborator.  It is
    represented by a [Driver] (what the library answers) and by a [World]
    (the pending error register, the trace of calls issued so far and the
    C++ heap holding the shared counters). *)

From Stdlib Require Import ZArith Lia Ascii String.
From Stdlib Require Import Floats.SpecFloat.
From stdpp Require Import gmap strings list.

Local Open Scope string_scope.
Local Open Scope list_scope.
Local Open Scope Z_scope.

(** ** Device names, enums and constants (values of OpenAL 1.1's al.h) *)

Definition ALenum := Z.
Definition ALuint := Z.
Definition handle := Z.            (* ALCdevice* / ALCcontext*; 0 is NULL *)

Definition AL_NO_ERROR : ALenum := 0.
Definition AL_FORMAT_MONO8 : ALenum := 0x1100.
Definition AL_FORMAT_MONO16 : ALenum := 0x1101.
Definition AL_FORMAT_STEREO8 : ALenum := 0x1102.
Definition AL_FORMAT_STEREO16 : ALenum := 0x1103.
Definition AL_PLAYING : Z := 0x1012.

Inductive ALparam :=
| AL_GAIN | AL_PITCH | AL_POSITION | AL_LOOPING | AL_BUFFER
| AL_REFERENCE_DISTANCE | AL_MAX_DISTANCE | AL_SOURCE_STATE.

(** A C [float]: an IEEE 754 binary32 datum. *)
Definition float := spec_float.

(** ** The trace of library calls

    Calls that hand back a name or a handle carry it, so that the
    resources live on the device can be read off the trace. *)

Inductive ALCall :=
| AlGetError
| AlGetString (e : ALenum)
| AlIsExtensionPresent (name : string)
| AlGetEnumValue (name : string)
| AlcOpenDevice (ret : handle)
| AlcCreateContext (dev : handle) (ret : handle)
| AlcMakeContextCurrent (ctx : handle)
| AlcDestroyContext (ctx : handle)
| AlcCloseDevice (dev : handle)
| AlSourcePlay (src : ALuint)
| AlSourceStop (src : ALuint)
| AlSourcePause (src : ALuint)
| AlGetSourcei (src : ALuint) (p : ALparam)
| AlSourcef (src : ALuint) (p : ALparam) (v : float)
| AlSource3f (src : ALuint) (p : ALparam) (x y z : float)
| AlSourcei (src : ALuint) (p : ALparam) (v : Z)
| AlGenSources (ret : ALuint)
| AlGenBuffers (ret : ALuint)
| AlBufferData (buf : ALuint) (fmt : Z) (data : list Z) (size : Z) (rate : Z)
| AlDeleteSources (src : ALuint)
| AlDeleteBuffers (buf : ALuint).

(** What the library answers.  Every answer may depend on the calls made
    so far, except the three static look-up tables. *)
Record Driver := {
  (* error raised by the last call of the given trace, AL_NO_ERROR if none *)
  drv_fault : list ALCall -> ALenum;
  (* alGetString: the text of an error code, None for a NULL result *)
  drv_errmsg : ALenum -> option string;
  (* alIsExtensionPresent *)
  drv_ext : string -> bool;
  (* alGetEnumValue: 0 when the name is unknown *)
  drv_enum : string -> ALenum;
  (* alcOpenDevice / alcCreateContext: the handle, 0 for NULL *)
  drv_open : list ALCall -> handle;
  drv_context : list ALCall -> handle -> handle;
  (* alGenSources / alGenBuffers: the name written to the out parameter *)
  drv_gen : list ALCall -> ALuint;
  (* alGetSourcei(AL_SOURCE_STATE) *)
  drv_state : list ALCall -> ALuint -> Z
}.

(** ** C++ heap of [int] objects and pointers into it

    Every [new int] makes a block of its own holding one [int]; a pointer
    is a block and an offset counted in [int]s.  Offset 0 is the object,
    offset 1 is the one-past-the-end pointer. *)

Inductive ptr :=
| Null
| Ptr (b : positive) (o : Z).

Definition INT_MIN : Z := - 2147483648.

Record World := {
  al_error : ALenum;             (* pending error register of the device *)
  al_log : list ALCall;          (* calls issued so far, oldest first *)
  heap : gmap positive Z;        (* live int objects *)
  next_block : positive;         (* next block new will hand out *)
  freed : list positive          (* blocks given to delete, oldest first *)
}.

Definition initial_world : World :=
  {| al_error := AL_NO_ERROR; al_log := []; heap := ∅;
     next_block := 1%positive; freed := [] |}.

(** ** Outcomes of running a piece of the program *)

Inductive Result (A : Type) :=
| Ok (a : A) (w : World)             (* returned normally *)
| Throw (msg : string) (w : World)   (* a str_exception propagates *)
| Abort (w : World)                  (* an assert failed *)
| Undefined.                         (* undefined behaviour *)

Arguments Ok {A} a w.
Arguments Throw {A} msg w.
Arguments Abort {A} w.
Arguments Undefined {A}.

Definition M (A : Type) : Type := World -> Result A.

Definition ret {A} (a : A) : M A := fun w => Ok a w.

Definition bind {A B} (m : M A) (k : A -> M B) : M B :=
  fun w =>
    match m w with
    | Ok a w' => k a w'
    | Throw msg w' => Throw msg w'
    | Abort w' => Abort w'
    | Undefined => Undefined
    end.

Declare Scope al_scope.
Delimit Scope al_scope with al.
Notation "'do' x <- m ; k" := (bind m (fun x => k))
  (at level 10, x name, m at level 100, k at level 200) : al_scope.
Notation "m ;; k" := (bind m (fun _ => k))
  (at level 100, k at level 200, right associativity) : al_scope.
Local Open Scope al_scope.

Definition throw {A} (msg : string) : M A := fun w => Throw msg w.
Definition c_assert (b : bool) : M unit :=
  fun w => if b then Ok tt w else Abort w.

(** The double quote character of the C++ literals. *)
Definition dquote : string := String (Ascii.ascii_of_nat 34) EmptyString.

(** [static void fail(const std::string &msg)] *)
Definition fail {A} (msg : string) : M A :=
  throw ("OpenAL exception: " +:+ msg).

(** ** The data of the program *)

(** The sample source collaborator: what [getInfo] reports, its
    direct-pointer flag and the bytes it holds. *)
Record SampleSource := {
  src_rate : Z;
  src_channels : Z;
  src_bits : Z;
  hasPtr : bool;
  src_data : list Z
}.

(** Modelled from the spec: the buffering adapter
    (stream/filters/buffer_stream.hpp) is not part of the sources; it
    materializes the entire stream into one contiguous block, which its
    getPtr/size pair then exposes. *)
Definition BufferStream (input : SampleSource) : list Z := src_data input.

(** [size()] of a block of bytes. *)
Definition size_of (bytes : list Z) : Z := Z.of_nat (length bytes).

(** The size parameter of alBufferData is an ALsizei, a 32-bit [int]:
    the [size()] handed to it is narrowed, wrapping around. *)
Definition ALSIZEI_MAX : Z := 2147483647.
Definition to_ALsizei (n : Z) : Z :=
  (n + 2147483648) mod 4294967296 - 2147483648.

(** Members the constructor leaves unwritten are [None]. *)
Record OpenAL_Factory := {
  didSetup : bool;
  needsUpdate : bool;
  has3D : bool;
  canLoadFile : bool;
  canLoadStream : bool;
  canLoadSource : bool;
  Device : option handle;
  Context : option handle
}.

Record OpenAL_Sound := {
  inst : ALuint;
  bufferID : ALuint;
  refCnt : ptr
}.

(** Reading a member that was never written is undefined. *)
Definition read_member {A} (m : option A) : M A :=
  fun w => match m with Some a => Ok a w | None => Undefined end.

Definition is_null (p : ptr) : bool :=
  match p with Null => true | Ptr _ _ => false end.

Definition set_heap (h : gmap positive Z) (w : World) : World :=
  {| al_error := al_error w; al_log := al_log w; heap := h;
     next_block := next_block w; freed := freed w |}.

(** [new int]: a fresh block; its content is indeterminate until the
    store that follows, 0 stands for it. *)
Definition new_int : M ptr := fun w =>
  let b := next_block w in
  Ok (Ptr b 0)
     {| al_error := al_error w; al_log := al_log w;
        heap := <[b := 0]> (heap w);
        next_block := Pos.succ b; freed := freed w |}.

(** [*p = v] *)
Definition store_int (p : ptr) (v : Z) : M unit := fun w =>
  match p with
  | Ptr b 0 =>
      match heap w !! b with
      | Some _ => Ok tt (set_heap (<[b := v]> (heap w)) w)
      | None => Undefined
      end
  | _ => Undefined
  end.

(** [*p++] as a statement.  Postfix [++] binds tighter than unary [*]:
    the pointer is advanced and the [int] it pointed to is neither read
    nor written.  The value returned is the new value of the pointer. *)
Definition deref_postincr (p : ptr) : M ptr := fun w =>
  match p with
  | Ptr b 0 =>
      match heap w !! b with
      | Some _ => Ok (Ptr b 1) w
      | None => Undefined
      end
  | _ => Undefined
  end.

(** [-- *p]: the value after the decrement.  The pointer must designate
    a live [int]; signed overflow is undefined. *)
Definition predecr_deref (p : ptr) : M Z := fun w =>
  match p with
  | Ptr b 0 =>
      match heap w !! b with
      | Some v =>
          if v =? INT_MIN then Undefined
          else Ok (v - 1) (set_heap (<[b := v - 1]> (heap w)) w)
      | None => Undefined
      end
  | _ => Undefined
  end.

(** [delete p] *)
Definition delete_int (p : ptr) : M unit := fun w =>
  match p with
  | Null => Ok tt w
  | Ptr b 0 =>
      match heap w !! b with
      | Some _ =>
          Ok tt {| al_error := al_error w; al_log := al_log w;
                   heap := delete b (heap w);
                   next_block := next_block w;
                   freed := freed w ++ [b] |}
      | None => Undefined
      end
  | Ptr _ _ => Undefined
  end.

(** The binary32 data 1.0 and 0.0. *)
Definition f_one : float := S754_finite false 8388608 (-23).
Definition f_zero : float := S754_zero false.

Section WithDriver.
Variable drv : Driver.

(** Record a call; the first error raised since the last [alGetError]
    stays in the register. *)
Definition al_call (c : ALCall) : M unit := fun w =>
  let log := al_log w ++ [c] in
  Ok tt {| al_error := if al_error w =? AL_NO_ERROR
                       then drv_fault drv log else al_error w;
           al_log := log; heap := heap w;
           next_block := next_block w; freed := freed w |}.

(** ALC calls report through alcGetError and leave the AL register. *)
Definition alc_call (c : ALCall) : M unit := fun w =>
  Ok tt {| al_error := al_error w; al_log := al_log w ++ [c];
           heap := heap w; next_block := next_block w;
           freed := freed w |}.

Definition get_log : M (list ALCall) := fun w => Ok (al_log w) w.

(** alGetError: hand out the register and clear it. *)
Definition alGetError : M ALenum := fun w =>
  Ok (al_error w)
     {| al_error := AL_NO_ERROR; al_log := al_log w ++ [AlGetError];
        heap := heap w; next_block := next_block w; freed := freed w |}.

Definition alGetString (e : ALenum) : M (option string) :=
  al_call (AlGetString e) ;; ret (drv_errmsg drv e).

Definition alIsExtensionPresent (name : string) : M bool :=
  al_call (AlIsExtensionPresent name) ;; ret (drv_ext drv name).

Definition alGetEnumValue (name : string) : M ALenum :=
  al_call (AlGetEnumValue name) ;; ret (drv_enum drv name).

Definition alGenSources : M ALuint :=
  do log <- get_log;
  let n := drv_gen drv log in
  al_call (AlGenSources n) ;; ret n.

Definition alGenBuffers : M ALuint :=
  do log <- get_log;
  let n := drv_gen drv log in
  al_call (AlGenBuffers n) ;; ret n.

Definition alcOpenDevice : M handle :=
  do log <- get_log;
  let d := drv_open drv log in
  alc_call (AlcOpenDevice d) ;; ret d.

Definition alcCreateContext (dev : handle) : M handle :=
  do log <- get_log;
  let c := drv_context drv log dev in
  alc_call (AlcCreateContext dev c) ;; ret c.

Definition alGetSourcei (src : ALuint) (p : ALparam) : M Z :=
  do log <- get_log;
  al_call (AlGetSourcei src p) ;; ret (drv_state drv log src).

(** *** checkALError (lines 24-37) *)
Definition checkALError (where_ : string) : M unit :=
  do err <- alGetError;
  if negb (err =? AL_NO_ERROR) then
    let msg := where_ in
    do errmsg <- alGetString err;
    match errmsg with
    | Some _ =>
        do again <- alGetString err;
        match again with
        | Some s => fail (dquote +:+ s +:+ dquote +:+ " while " +:+ msg)
        | None => fun _ => Undefined   (* std::string from NULL *)
        end
    | None =>
        fail ("non-specified error while " +:+ msg
              +:+ " (did you forget to initialize OpenAL?)")
    end
  else ret tt.


(** *** getALFormat (lines 39-70)

    [getInfo] of the sample source is an external collaborator: it
    hands out the three numbers the source states. *)
Definition fmt_bits8 (ch fmt : Z) : M Z :=
  let fmt := if ch =? 1 then AL_FORMAT_MONO8 else fmt in
  let fmt := if ch =? 2 then AL_FORMAT_STEREO8 else fmt in
  do ext <- alIsExtensionPresent "AL_EXT_MCFORMATS";
  if ext then
    do fmt <- (if ch =? 4 then alGetEnumValue "AL_FORMAT_QUAD8"
               else ret fmt);
    do fmt <- (if ch =? 6 then alGetEnumValue "AL_FORMAT_51CHN8"
               else ret fmt);
    ret fmt
  else ret fmt.

(* lines 58-60: the three tests outside the extension test *)
Definition fmt_bits16_plain (ch fmt : Z) : M Z :=
  let fmt := if ch =? 1 then AL_FORMAT_MONO16 else fmt in
  let fmt := if ch =? 2 then AL_FORMAT_STEREO16 else fmt in
  do fmt <- (if ch =? 4 then alGetEnumValue "AL_FORMAT_QUAD16"
             else ret fmt);
  ret fmt.

(* lines 61-65: the tests under the extension test *)
Definition fmt_bits16_ext (ch fmt : Z) : M Z :=
  do ext <- alIsExtensionPresent "AL_EXT_MCFORMATS";
  if ext then
    do fmt <- (if ch =? 4 then alGetEnumValue "AL_FORMAT_QUAD16"
               else ret fmt);
    do fmt <- (if ch =? 6 then alGetEnumValue "AL_FORMAT_51CHN16"
               else ret fmt);
    ret fmt
  else ret fmt.

(* lines 44-66: the tag held by [fmt] when line 68 is reached *)
Definition resolve_tag (ch bits : Z) : M Z :=
  let fmt := 0 in
  do fmt <- (if bits =? 8 then fmt_bits8 ch fmt else ret fmt);
  do fmt <- (if bits =? 16
             then do fmt <- fmt_bits16_plain ch fmt; fmt_bits16_ext ch fmt
             else ret fmt);
  ret fmt.

Definition getALFormat (inp : SampleSource) : M (Z * Z) :=
  let rate := src_rate inp in
  let ch := src_channels inp in
  let bits := src_bits inp in
  do fmt <- resolve_tag ch bits;
  if fmt =? 0 then fail "Unsupported input format"
  else ret (fmt, rate).

(** *** OpenAL_Factory (lines 74-105) *)

Definition OpenAL_Factory_ctor (doSetup : bool) : M OpenAL_Factory :=
  let mk dev ctx :=
    {| didSetup := doSetup; needsUpdate := false; has3D := true;
       canLoadFile := false; canLoadStream := false;
       canLoadSource := true; Device := dev; Context := ctx |} in
  if doSetup then
    do dev <- alcOpenDevice;
    do ctx <- alcCreateContext dev;
    (if (dev =? 0) || (ctx =? 0)
     then fail "Failed to initialize context or device"
     else ret tt) ;;
    alc_call (AlcMakeContextCurrent ctx) ;;
    ret (mk (Some dev) (Some ctx))
  else ret (mk None None).

Definition OpenAL_Factory_dtor (f : OpenAL_Factory) : M unit :=
  if didSetup f then
    alc_call (AlcMakeContextCurrent 0) ;;
    do ctx <- read_member (Context f);
    (if negb (ctx =? 0) then alc_call (AlcDestroyContext ctx)
     else ret tt) ;;
    do dev <- read_member (Device f);
    (if negb (dev =? 0) then alc_call (AlcCloseDevice dev)
     else ret tt)
  else ret tt.

(** *** OpenAL_Sound (lines 109-244) *)

Definition play (s : OpenAL_Sound) : M unit :=
  al_call (AlSourcePlay (inst s)) ;; checkALError "starting playback".

Definition stop (s : OpenAL_Sound) : M unit :=
  al_call (AlSourceStop (inst s)) ;; checkALError "stopping".

Definition pause (s : OpenAL_Sound) : M unit :=
  al_call (AlSourcePause (inst s)) ;; checkALError "pausing".

Definition isPlaying (s : OpenAL_Sound) : M bool :=
  do state <- alGetSourcei (inst s) AL_SOURCE_STATE;
  ret (state =? AL_PLAYING).

(* the value of [volume] when line 139 is reached *)
Definition setVolume_gain (volume : float) : float :=
  let volume := if SFltb f_one volume then f_one else volume in
  let volume := if SFltb volume f_zero then f_zero else volume in
  volume.

Definition setVolume (s : OpenAL_Sound) (volume : float) : M unit :=
  al_call (AlSourcef (inst s) AL_GAIN (setVolume_gain volume)) ;;
  checkALError "setting volume".

Definition setRange (s : OpenAL_Sound) (a b c : float) : M unit :=
  al_call (AlSourcef (inst s) AL_REFERENCE_DISTANCE a) ;;
  al_call (AlSourcef (inst s) AL_MAX_DISTANCE b) ;;
  checkALError "setting sound ranges".

Definition setPos (s : OpenAL_Sound) (x y z : float) : M unit :=
  al_call (AlSource3f (inst s) AL_POSITION x y z) ;;
  checkALError "setting position".

Definition setPitch (s : OpenAL_Sound) (pitch : float) : M unit :=
  al_call (AlSourcef (inst s) AL_PITCH pitch) ;;
  checkALError "setting pitch".

Definition setRepeat (s : OpenAL_Sound) (rep : bool) : M unit :=
  al_call (AlSourcei (inst s) AL_LOOPING (if rep then 1 else 0)).

(* Constructor used for cloned sounds (lines 173-185) *)
Definition OpenAL_Sound_ctor_clone (buf : ALuint) (ref : ptr)
  : M OpenAL_Sound :=
  let bufferID := buf in
  let refCnt := ref in
  c_assert (negb (is_null ref)) ;;
  do refCnt <- deref_postincr refCnt;
  do inst <- alGenSources;
  checkALError "creating instance (clone)" ;;
  al_call (AlSourcei inst AL_BUFFER bufferID) ;;
  checkALError "assigning buffer (clone)" ;;
  ret {| inst := inst; bufferID := bufferID; refCnt := refCnt |}.

(* lines 167-170; a failing new of the instance itself is not modelled *)
Definition clone (s : OpenAL_Sound) : M OpenAL_Sound :=
  OpenAL_Sound_ctor_clone (bufferID s) (refCnt s).

(* Constructor used for original (non-cloned) sounds (lines 188-225).
   Exceptions raised inside the collaborators (getInfo, BufferStream) or
   by a failing new are not modelled. *)
Definition OpenAL_Sound_ctor (input : SampleSource) : M OpenAL_Sound :=
  do fr <- getALFormat input;
  let fmt := fst fr in
  let rate := snd fr in
  do bufferID <- alGenBuffers;
  checkALError "generating buffer" ;;
  c_assert (negb (bufferID =? 0)) ;;
  (if hasPtr input
   then al_call (AlBufferData bufferID fmt (src_data input)
                   (to_ALsizei (size_of (src_data input))) rate)
   else let buf := BufferStream input in
        al_call (AlBufferData bufferID fmt buf
                   (to_ALsizei (size_of buf)) rate)) ;;
  checkALError "loading sound buffer" ;;
  do inst <- alGenSources;
  checkALError "creating source" ;;
  al_call (AlSourcei inst AL_BUFFER bufferID) ;;
  checkALError "assigning buffer" ;;
  do refCnt <- new_int;
  store_int refCnt 1 ;;
  ret {| inst := inst; bufferID := bufferID; refCnt := refCnt |}.

(* Destructor (lines 227-244) *)
Definition OpenAL_Sound_dtor (s : OpenAL_Sound) : M unit :=
  al_call (AlSourceStop (inst s)) ;;
  al_call (AlDeleteSources (inst s)) ;;
  do cnt <- predecr_deref (refCnt s);
  if cnt =? 0 then
    al_call (AlDeleteBuffers (bufferID s)) ;;
    checkALError "deleting buffer" ;;
    delete_int (refCnt s)
  else ret tt.

End WithDriver.

(** ** Reading the trace *)

(** Device handles opened and not closed, oldest first. *)
Fixpoint live_devices_from (live : list handle) (log : list ALCall)
  : list handle :=
  match log with
  | [] => live
  | AlcOpenDevice d :: log' =>
      live_devices_from (if d =? 0 then live else live ++ [d]) log'
  | AlcCloseDevice d :: log' =>
      live_devices_from (List.filter (fun x => negb (x =? d)) live) log'
  | _ :: log' => live_devices_from live log'
  end.

Definition live_devices (log : list ALCall) : list handle :=
  live_devices_from [] log.

(** Context handles created and not destroyed, oldest first. *)
Fixpoint live_contexts_from (live : list handle) (log : list ALCall)
  : list handle :=
  match log with
  | [] => live
  | AlcCreateContext _ c :: log' =>
      live_contexts_from (if c =? 0 then live else live ++ [c]) log'
  | AlcDestroyContext c :: log' =>
      live_contexts_from (List.filter (fun x => negb (x =? c)) live) log'
  | _ :: log' => live_contexts_from live log'
  end.

Definition live_contexts (log : list ALCall) : list handle :=
  live_contexts_from [] log.

Definition is_delete_buffer (buf : ALuint) (c : ALCall) : bool :=
  match c with AlDeleteBuffers b => b =? buf | _ => false end.

Definition is_buffer_data (c : ALCall) : bool :=
  match c with AlBufferData _ _ _ _ _ => true | _ => false end.

(** How often the buffer was handed to alDeleteBuffers. *)
Definition buffer_deletions (buf : ALuint) (log : list ALCall) : nat :=
  length (List.filter (is_delete_buffer buf) log).

(** How often sample data was uploaded. *)
Definition uploads (log : list ALCall) : nat :=
  length (List.filter is_buffer_data log).

(** ** Concrete drivers used to run the program *)

Definition AL_INVALID_NAME : ALenum := 0xA001.

(** A device that never raises an error and has no extension. *)
Definition plain_driver : Driver :=
  {| drv_fault := fun _ => AL_NO_ERROR;
     drv_errmsg := fun e => if e =? AL_INVALID_NAME
                            then Some "Invalid Name" else None;
     drv_ext := fun _ => false;
     drv_enum := fun _ => 0;
     drv_open := fun _ => 1;
     drv_context := fun _ d => if d =? 0 then 0 else 2;
     drv_gen := fun log => Z.of_nat (length log) + 1;
     drv_state := fun _ _ => 0x1011 |}.

(** The same device with AL_EXT_MCFORMATS and its enum table. *)
Definition mc_driver : Driver :=
  {| drv_fault := fun _ => AL_NO_ERROR;
     drv_errmsg := drv_errmsg plain_driver;
     drv_ext := fun name => String.eqb name "AL_EXT_MCFORMATS";
     drv_enum := fun name =>
       if String.eqb name "AL_FORMAT_QUAD8" then 0x1204
       else if String.eqb name "AL_FORMAT_QUAD16" then 0x1205
       else if String.eqb name "AL_FORMAT_51CHN8" then 0x120A
       else if String.eqb name "AL_FORMAT_51CHN16" then 0x120B
       else 0;
     drv_open := drv_open plain_driver;
     drv_context := drv_context plain_driver;
     drv_gen := drv_gen plain_driver;
     drv_state := drv_state plain_driver |}.

Definition with_error (e : ALenum) (w : World) : World :=
  {| al_error := e; al_log := al_log w; heap := heap w;
     next_block := next_block w; freed := freed w |}.

Definition source_of (ch bits : Z) : SampleSource :=
  {| src_rate := 44100; src_channels := ch; src_bits := bits;
     hasPtr := true; src_data := [1; 2; 3; 4] |}.

(** ** The messages of the error check gate *)

Definition gate_message (m d : string) : string :=
  "OpenAL exception: " +:+ dquote +:+ m +:+ dquote +:+ " while " +:+ d.

Definition gate_message_unknown (d : string) : string :=
  "OpenAL exception: non-specified error while " +:+ d
  +:+ " (did you forget to initialize OpenAL?)".

(** The message of line 69. *)
Definition unsupported : string :=
  "OpenAL exception: Unsupported input format".

(** The message of line 90. *)
Definition setup_failure : string :=
  "OpenAL exception: Failed to initialize context or device".

(** ** Further devices and inputs *)

Definition last_call (log : list ALCall) : option ALCall := last log.

(** A device on which stopping a source raises AL_INVALID_NAME. *)
Definition stop_fault_driver : Driver :=
  {| drv_fault := fun log =>
       match last_call log with
       | Some (AlSourceStop _) => AL_INVALID_NAME
       | _ => AL_NO_ERROR
       end;
     drv_errmsg := drv_errmsg plain_driver;
     drv_ext := drv_ext plain_driver;
     drv_enum := drv_enum plain_driver;
     drv_open := drv_open plain_driver;
     drv_context := drv_context plain_driver;
     drv_gen := drv_gen plain_driver;
     drv_state := drv_state plain_driver |}.

(** A device that opens (handle 1) but yields no context. *)
Definition no_context_driver : Driver :=
  {| drv_fault := drv_fault plain_driver;
     drv_errmsg := drv_errmsg plain_driver;
     drv_ext := drv_ext plain_driver;
     drv_enum := drv_enum plain_driver;
     drv_open := fun _ => 1;
     drv_context := fun _ _ => 0;
     drv_gen := drv_gen plain_driver;
     drv_state := drv_state plain_driver |}.

(** The world after a run of AL calls. *)
Definition al_calls (drv : Driver) (cs : list ALCall) (w : World) : World :=
  fold_left
    (fun w c => match al_call drv c w with Ok _ w' => w' | _ => w end)
    cs w.

(** binary32 data: -0.5, the float nearest 1.7, the float nearest 0.3 *)
Definition f_minus_half : float := S754_finite true 8388608 (-24).
Definition f_1_7 : float := S754_finite false 14260634 (-23).
Definition f_0_3 : float := S754_finite false 10066330 (-25).

(** ** The clamp as the specification words it

    min and max are those of the C++ library: [std::max a b] is
    [a < b ? b : a] and [std::min a b] is [b < a ? b : a]. *)
Definition std_max (a b : float) : float := if SFltb a b then b else a.
Definition std_min (a b : float) : float := if SFltb b a then b else a.
Definition clamp_spec (v : float) : float :=
  std_min (std_max v f_zero) f_one.

(** ** Scenarios *)

(** An original, one clone, then the original is destroyed. *)
Definition original_clone_destroy_original (drv : Driver)
  : M (OpenAL_Sound * OpenAL_Sound) :=
  do a <- OpenAL_Sound_ctor drv (source_of 2 16);
  do b <- clone drv a;
  OpenAL_Sound_dtor drv a ;;
  ret (a, b).

(** An original, one clone, then the clone is destroyed. *)
Definition original_clone_destroy_clone (drv : Driver)
  : M (OpenAL_Sound * OpenAL_Sound) :=
  do a <- OpenAL_Sound_ctor drv (source_of 2 16);
  do b <- clone drv a;
  OpenAL_Sound_dtor drv b ;;
  ret (a, b).

(** An original and one clone. *)
Definition original_and_clone (drv : Driver)
  : M (OpenAL_Sound * OpenAL_Sound) :=
  do a <- OpenAL_Sound_ctor drv (source_of 2 16);
  do b <- clone drv a;
  ret (a, b).

(** An original that is destroyed at once. *)
Definition construct_destroy (drv : Driver) : M unit :=
  do a <- OpenAL_Sound_ctor drv (source_of 2 16);
  OpenAL_Sound_dtor drv a.

(** A world holding one counter (block 1) with the given value, and a
    sound that refers to it. *)
Definition world_with_counter (v : Z) : World :=
  {| al_error := AL_NO_ERROR; al_log := [];
     heap := {[ 1%positive := v ]};
     next_block := 2%positive; freed := [] |}.

Definition sample_sound : OpenAL_Sound :=
  {| inst := 6; bufferID := 2; refCnt := Ptr 1 0 |}.

(** The counter a sound refers to, when its pointer designates one. *)
Definition counter_of (s : OpenAL_Sound) (w : World) : option Z :=
  match refCnt s with
  | Ptr b 0 => heap w !! b
  | _ => None
  end.

(** ** Outcomes, memory and gates *)

(** The C++ memory is the same in both worlds: no counter was written,
    allocated or freed. *)
Definition same_memory (w w' : World) : Prop :=
  heap w' = heap w /\ freed w' = freed w /\ next_block w' = next_block w.

(** [Q] holds of a normal return, [E] of the world an exception or a
    failed assert leaves; undefined behaviour is excluded. *)
Definition outcome {A} (Q : A -> World -> Prop) (E : World -> Prop)
  (r : Result A) : Prop :=
  match r with
  | Ok a w' => Q a w'
  | Throw _ w' => E w'
  | Abort w' => E w'
  | Undefined => False
  end.

(** The world after an [alGetError] that found the register as it is. *)
Definition cleared (w : World) : World :=
  {| al_error := AL_NO_ERROR; al_log := al_log w ++ [AlGetError];
     heap := heap w; next_block := next_block w; freed := freed w |}.

(** The message the gate builds for error code [e] and description [d]. *)
Definition gate_failure (drv : Driver) (e : ALenum) (d : string) : string :=
  match drv_errmsg drv e with
  | Some m => gate_message m d
  | None => gate_message_unknown d
  end.

(** [op] issues the calls [calls] and then runs the gate under the
    description [d]. *)
Definition gate_checked (drv : Driver) (op : M unit) (calls : list ALCall)
  (d : string) : Prop :=
  forall w,
    let w1 := al_calls drv calls w in
    (al_error w1 = AL_NO_ERROR -> op w = Ok tt (cleared w1)) /\
    (al_error w1 <> AL_NO_ERROR ->
     exists w', op w = Throw (gate_failure drv (al_error w1) d) w'
                /\ same_memory w w').

Definition is_query (c : ALCall) : bool :=
  match c with
  | AlIsExtensionPresent _ | AlGetEnumValue _ => true
  | _ => false
  end.

Definition is_release (c : ALCall) : bool :=
  match c with
  | AlDeleteSources _ | AlDeleteBuffers _ => true
  | _ => false
  end.

(** How many sources and buffers were handed back to the device. *)
Definition releases (log : list ALCall) : nat :=
  length (List.filter is_release log).

(** Nothing was written to the memory and nothing handed back to the
    device between the two worlds. *)
Definition quiet (w w' : World) : Prop :=
  same_memory w w' /\ releases (al_log w') = releases (al_log w).

Definition AL_INITIAL : Z := 0x1011.
Definition AL_PAUSED : Z := 0x1013.
Definition AL_STOPPED : Z := 0x1014.

(** A device on which setting the looping flag raises AL_INVALID_NAME. *)
Definition loop_fault_driver : Driver :=
  {| drv_fault := fun log =>
       match last_call log with
       | Some (AlSourcei _ AL_LOOPING _) => AL_INVALID_NAME
       | _ => AL_NO_ERROR
       end;
     drv_errmsg := drv_errmsg plain_driver;
     drv_ext := drv_ext plain_driver;
     drv_enum := drv_enum plain_driver;
     drv_open := drv_open plain_driver;
     drv_context := drv_context plain_driver;
     drv_gen := drv_gen plain_driver;
     drv_state := drv_state plain_driver |}.

(** A device that hands out the name 0 without raising an error. *)
Definition zero_name_driver : Driver :=
  {| drv_fault := drv_fault plain_driver;
     drv_errmsg := drv_errmsg plain_driver;
     drv_ext := drv_ext plain_driver;
     drv_enum := drv_enum plain_driver;
     drv_open := drv_open plain_driver;
     drv_context := drv_context plain_driver;
     drv_gen := fun _ => 0;
     drv_state := drv_state plain_driver |}.

(** A device on which generating a source raises AL_INVALID_NAME. *)
Definition source_fault_driver : Driver :=
  {| drv_fault := fun log =>
       match last_call log with
       | Some (AlGenSources _) => AL_INVALID_NAME
       | _ => AL_NO_ERROR
       end;
     drv_errmsg := drv_errmsg plain_driver;
     drv_ext := drv_ext plain_driver;
     drv_enum := drv_enum plain_driver;
     drv_open := drv_open plain_driver;
     drv_context := drv_context plain_driver;
     drv_gen := drv_gen plain_driver;
     drv_state := drv_state plain_driver |}.

(** A device whose sources all report the given state. *)
Definition state_driver (st : Z) : Driver :=
  {| drv_fault := drv_fault plain_driver;
     drv_errmsg := drv_errmsg plain_driver;
     drv_ext := drv_ext plain_driver;
     drv_enum := drv_enum plain_driver;
     drv_open := drv_open plain_driver;
     drv_context := drv_context plain_driver;
     drv_gen := drv_gen plain_driver;
     drv_state := fun _ _ => st |}.

(** ** Proof support *)

Ltac run :=
  unfold getALFormat, resolve_tag, fmt_bits8, fmt_bits16_plain,
    fmt_bits16_ext, checkALError, alGetString, alIsExtensionPresent,
    alGetEnumValue, alGetError, alGenSources, alGenBuffers, alcOpenDevice,
    alcCreateContext, get_log, al_call, alc_call, fail, throw, c_assert,
    bind, ret in *;
  cbn [al_error al_log heap next_block freed] in *.

(** * The error check gate *)

(** C5: [checkALError d] returns normally when no error is pending; with
    an error pending and a device text [m] it fails with the quoted [m],
    then " while ", then [d]; with an error pending and no text it fails
    with a message made of [d] and the hint about initialization. *)
Theorem checkALError_gate (drv : Driver) (d : string) (w : World) :
  (al_error w = AL_NO_ERROR ->
   exists w', checkALError drv d w = Ok tt w'
              /\ al_log w' = al_log w ++ [AlGetError]) /\
  (forall m, al_error w <> AL_NO_ERROR ->
             drv_errmsg drv (al_error w) = Some m ->
             exists w', checkALError drv d w = Throw (gate_message m d) w') /\
  (al_error w <> AL_NO_ERROR ->
   drv_errmsg drv (al_error w) = None ->
   exists w', checkALError drv d w = Throw (gate_message_unknown d) w').
Proof.
  repeat split.
  - intros H. run. rewrite H. cbn. eexists. split; reflexivity.
  - intros m Hne Hm. run.
    apply Z.eqb_neq in Hne. rewrite Hne. cbn. rewrite Hm.
    eexists. reflexivity.
  - intros Hne Hm. run.
    apply Z.eqb_neq in Hne. rewrite Hne. cbn. rewrite Hm.
    eexists. reflexivity.
Qed.

Lemma checkALError_gate_witness :
  (exists w', checkALError plain_driver "stopping" initial_world = Ok tt w'
              /\ al_log w' = [AlGetError]) /\
  (exists w', checkALError plain_driver "stopping"
                (with_error AL_INVALID_NAME initial_world)
              = Throw (gate_message "Invalid Name" "stopping") w') /\
  (exists w', checkALError plain_driver "stopping"
                (with_error 7 initial_world)
              = Throw (gate_message_unknown "stopping") w').
Proof.
  split; [| split].
  - apply (checkALError_gate plain_driver "stopping" initial_world).
    reflexivity.
  - apply (checkALError_gate plain_driver "stopping"
             (with_error AL_INVALID_NAME initial_world)).
    + discriminate.
    + reflexivity.
  - apply (checkALError_gate plain_driver "stopping"
             (with_error 7 initial_world)).
    + discriminate.
    + reflexivity.
Defined.

(** * Format negotiation *)

(** The check of line 68, on whatever tag lines 44-66 resolved. *)
Lemma getALFormat_after_resolve (drv : Driver) (inp : SampleSource)
  (w w' : World) (fmt : Z) :
  resolve_tag drv (src_channels inp) (src_bits inp) w = Ok fmt w' ->
  getALFormat drv inp w =
    if fmt =? 0 then Throw unsupported w' else Ok (fmt, src_rate inp) w'.
Proof.
  intros H. unfold getALFormat.
  unfold bind at 1. rewrite H.
  destruct (fmt =? 0); reflexivity.
Qed.

(** Resolving a tag always comes back with a tag (possibly 0). *)
Lemma resolve_tag_total (drv : Driver) (ch bits : Z) (w : World) :
  exists fmt w', resolve_tag drv ch bits w = Ok fmt w'.
Proof.
  run.
  destruct (bits =? 8); destruct (bits =? 16); cbn;
    repeat match goal with
           | |- context [if ?c then _ else _] => destruct c; cbn
           end; eexists; eexists; reflexivity.
Qed.

(** C3: the four mono/stereo combinations resolve to their fixed tags
    together with the stated rate; a combination for which no tag is
    resolved, such as (3,8) or (5,16), fails with the unsupported input
    format error instead of returning. *)
Theorem getALFormat_fixed_tags (drv : Driver) (inp : SampleSource)
  (w : World) :
  (src_channels inp = 1 -> src_bits inp = 8 ->
   exists w', getALFormat drv inp w
              = Ok (AL_FORMAT_MONO8, src_rate inp) w') /\
  (src_channels inp = 2 -> src_bits inp = 8 ->
   exists w', getALFormat drv inp w
              = Ok (AL_FORMAT_STEREO8, src_rate inp) w') /\
  (src_channels inp = 1 -> src_bits inp = 16 ->
   exists w', getALFormat drv inp w
              = Ok (AL_FORMAT_MONO16, src_rate inp) w') /\
  (src_channels inp = 2 -> src_bits inp = 16 ->
   exists w', getALFormat drv inp w
              = Ok (AL_FORMAT_STEREO16, src_rate inp) w') /\
  (forall w', resolve_tag drv (src_channels inp) (src_bits inp) w = Ok 0 w' ->
              getALFormat drv inp w = Throw unsupported w') /\
  (src_channels inp = 3 /\ src_bits inp = 8
   \/ src_channels inp = 5 /\ src_bits inp = 16 ->
   exists w', getALFormat drv inp w = Throw unsupported w').
Proof.
  repeat split.
  - intros Hc Hb. run. rewrite Hc, Hb. cbn.
    destruct (drv_ext drv _); cbn; eexists; reflexivity.
  - intros Hc Hb. run. rewrite Hc, Hb. cbn.
    destruct (drv_ext drv _); cbn; eexists; reflexivity.
  - intros Hc Hb. run. rewrite Hc, Hb. cbn.
    destruct (drv_ext drv _); cbn; eexists; reflexivity.
  - intros Hc Hb. run. rewrite Hc, Hb. cbn.
    destruct (drv_ext drv _); cbn; eexists; reflexivity.
  - intros w' H. rewrite (getALFormat_after_resolve _ _ _ _ _ H).
    reflexivity.
  - intros [[Hc Hb] | [Hc Hb]]; run; rewrite Hc, Hb; cbn;
      destruct (drv_ext drv _); cbn; eexists; reflexivity.
Qed.

Lemma getALFormat_fixed_tags_witness :
  (exists w', getALFormat plain_driver (source_of 1 8) initial_world
              = Ok (AL_FORMAT_MONO8, 44100) w') /\
  (exists w', getALFormat mc_driver (source_of 2 8) initial_world
              = Ok (AL_FORMAT_STEREO8, 44100) w') /\
  (exists w', getALFormat plain_driver (source_of 1 16) initial_world
              = Ok (AL_FORMAT_MONO16, 44100) w') /\
  (exists w', getALFormat mc_driver (source_of 2 16) initial_world
              = Ok (AL_FORMAT_STEREO16, 44100) w') /\
  (exists w', getALFormat plain_driver (source_of 6 16) initial_world
              = Throw unsupported w') /\
  (exists w', getALFormat plain_driver (source_of 3 8) initial_world
              = Throw unsupported w') /\
  (exists w', getALFormat plain_driver (source_of 5 16) initial_world
              = Throw unsupported w').
Proof.
  repeat split.
  - apply (getALFormat_fixed_tags plain_driver (source_of 1 8) initial_world);
      reflexivity.
  - apply (getALFormat_fixed_tags mc_driver (source_of 2 8) initial_world);
      reflexivity.
  - apply (getALFormat_fixed_tags plain_driver (source_of 1 16) initial_world);
      reflexivity.
  - apply (getALFormat_fixed_tags mc_driver (source_of 2 16) initial_world);
      reflexivity.
  - eexists.
    apply (getALFormat_fixed_tags plain_driver (source_of 6 16) initial_world).
    reflexivity.
  - apply (getALFormat_fixed_tags plain_driver (source_of 3 8) initial_world).
    left. split; reflexivity.
  - apply (getALFormat_fixed_tags plain_driver (source_of 5 16) initial_world).
    right. split; reflexivity.
Defined.



(** C10: with the extension absent, a 16-bit 4-channel source gets the
    value the device's enum lookup yields for the quad-16 name; when that
    value is 0 the resolution fails with the unsupported input format
    error, although the 4-channel branch of line 60 was taken. *)
Theorem quad16_without_extension (drv : Driver) (inp : SampleSource)
  (w : World) :
  drv_ext drv "AL_EXT_MCFORMATS" = false ->
  src_channels inp = 4 -> src_bits inp = 16 ->
  let quad16 := drv_enum drv "AL_FORMAT_QUAD16" in
  exists w',
    resolve_tag drv 4 16 w = Ok quad16 w' /\
    al_log w' = al_log w ++ [AlGetEnumValue "AL_FORMAT_QUAD16";
                             AlIsExtensionPresent "AL_EXT_MCFORMATS"] /\
    (quad16 = 0 -> getALFormat drv inp w = Throw unsupported w') /\
    (quad16 <> 0 -> getALFormat drv inp w = Ok (quad16, src_rate inp) w').
Proof.
  intros Hext Hc Hb quad16. run. rewrite Hc, Hb. cbn. rewrite Hext. cbn.
  eexists. repeat split.
  - cbn. rewrite <- !app_assoc. reflexivity.
  - intros H0. fold quad16. rewrite H0. reflexivity.
  - intros Hne. fold quad16. apply Z.eqb_neq in Hne. rewrite Hne.
    reflexivity.
Qed.

Lemma quad16_without_extension_witness :
  exists w',
    resolve_tag plain_driver 4 16 initial_world = Ok 0 w' /\
    al_log w' = [AlGetEnumValue "AL_FORMAT_QUAD16";
                 AlIsExtensionPresent "AL_EXT_MCFORMATS"] /\
    (0 = 0 -> getALFormat plain_driver (source_of 4 16) initial_world
              = Throw unsupported w') /\
    (0 <> 0 -> getALFormat plain_driver (source_of 4 16) initial_world
               = Ok (0, 44100) w').
Proof.
  apply (quad16_without_extension plain_driver (source_of 4 16)
           initial_world); reflexivity.
Defined.

(** * Device and context life cycle *)

Lemma live_devices_from_app (l1 l2 : list ALCall) (acc : list handle) :
  live_devices_from acc (l1 ++ l2)
  = live_devices_from (live_devices_from acc l1) l2.
Proof.
  revert acc. induction l1 as [| c l1 IH]; intros acc; [reflexivity |].
  destruct c; cbn; apply IH.
Qed.

Lemma live_contexts_from_app (l1 l2 : list ALCall) (acc : list handle) :
  live_contexts_from acc (l1 ++ l2)
  = live_contexts_from (live_contexts_from acc l1) l2.
Proof.
  revert acc. induction l1 as [| c l1 IH]; intros acc; [reflexivity |].
  destruct c; cbn; apply IH.
Qed.

(** C8: a Factory that performed setup tears down by unbinding the
    current context, destroying the context if it is non-null and closing
    the device if it is non-null, in that order; a Factory constructed
    without the setup flag issues no device call when destroyed. *)
Theorem factory_teardown (drv : Driver) (w : World) :
  (forall f dev ctx,
      didSetup f = true -> Device f = Some dev -> Context f = Some ctx ->
      exists w',
        OpenAL_Factory_dtor f w = Ok tt w' /\
        al_log w' = al_log w
                    ++ [AlcMakeContextCurrent 0]
                    ++ (if ctx =? 0 then [] else [AlcDestroyContext ctx])
                    ++ (if dev =? 0 then [] else [AlcCloseDevice dev])) /\
  (forall f w1,
      OpenAL_Factory_ctor drv true w = Ok f w1 ->
      exists dev ctx w2,
        Device f = Some dev /\ Context f = Some ctx /\
        OpenAL_Factory_dtor f w1 = Ok tt w2 /\
        al_log w2 = al_log w1 ++ [AlcMakeContextCurrent 0;
                                  AlcDestroyContext ctx;
                                  AlcCloseDevice dev]) /\
  (forall f, didSetup f = false -> OpenAL_Factory_dtor f w = Ok tt w) /\
  (exists f, OpenAL_Factory_ctor drv false w = Ok f w /\
             OpenAL_Factory_dtor f w = Ok tt w).
Proof.
  split; [| split; [| split]].
  - intros f dev ctx Hs Hd Hc. unfold OpenAL_Factory_dtor.
    rewrite Hs, Hd, Hc. run. cbn.
    destruct (ctx =? 0); destruct (dev =? 0); cbn;
      eexists; (split; [reflexivity |]); cbn;
      rewrite <- ?app_assoc; reflexivity.
  - intros f w1. unfold OpenAL_Factory_ctor. run. cbn.
    destruct (drv_open drv (al_log w) =? 0) eqn:Hdev; cbn;
      [discriminate |].
    destruct (drv_context drv _ _ =? 0) eqn:Hctx; cbn; [discriminate |].
    intros H. injection H as <- <-.
    unfold OpenAL_Factory_dtor. run. cbn. rewrite Hdev, Hctx. cbn.
    do 3 eexists. repeat split. cbn.
    rewrite <- !app_assoc. reflexivity.
  - intros f Hs. unfold OpenAL_Factory_dtor. rewrite Hs. reflexivity.
  - eexists. split; reflexivity.
Qed.

Lemma factory_teardown_witness :
  (exists f w1 w2,
      OpenAL_Factory_ctor plain_driver true initial_world = Ok f w1 /\
      OpenAL_Factory_dtor f w1 = Ok tt w2 /\
      al_log w2 = [AlcOpenDevice 1; AlcCreateContext 1 2;
                   AlcMakeContextCurrent 2; AlcMakeContextCurrent 0;
                   AlcDestroyContext 2; AlcCloseDevice 1]) /\
  (exists f,
      OpenAL_Factory_ctor plain_driver false initial_world
      = Ok f initial_world /\
      OpenAL_Factory_dtor f initial_world
      = Ok tt initial_world).
Proof.
  pose proof (factory_teardown plain_driver initial_world)
    as (Hgen & Hctor & Hoff & Hnone).
  split; [| exact Hnone].
  destruct (OpenAL_Factory_ctor plain_driver true initial_world)
    as [f w1 | | |] eqn:E; try discriminate.
  destruct (Hctor f w1 eq_refl) as (dev & ctx & w2 & Hd & Hc & Hrun & Hlog).
  exists f, w1, w2. split; [reflexivity |]. split; [exact Hrun |].
  rewrite Hlog. clear Hgen Hoff Hnone Hrun Hlog.
  cbv in E. injection E as <- <-. cbn in Hd, Hc.
  injection Hd as <-. injection Hc as <-. reflexivity.
Defined.

(** C6, as stated, fails: when the device opens and the context comes
    back null, the constructor raises and the opened device is still
    live, nothing having closed it. *)
Lemma factory_failure_leaves_device_open :
  exists w',
    OpenAL_Factory_ctor no_context_driver true initial_world
    = Throw setup_failure w' /\
    live_devices (al_log w') = [1].
Proof. eexists. split; reflexivity. Qed.

(** C6, amended: when the device handle or the context handle comes back
    null, construction with setup raises the setup failure after exactly
    the open-device and create-context calls; no context is made current
    and nothing is torn down, so each handle that came back non-null is
    still live afterwards. *)
Theorem factory_setup_failure (drv : Driver) (w : World) :
  let dev := drv_open drv (al_log w) in
  let ctx := drv_context drv (al_log w ++ [AlcOpenDevice dev]) dev in
  dev = 0 \/ ctx = 0 ->
  exists w',
    OpenAL_Factory_ctor drv true w = Throw setup_failure w' /\
    al_log w' = al_log w ++ [AlcOpenDevice dev; AlcCreateContext dev ctx] /\
    al_error w' = al_error w /\ heap w' = heap w /\
    live_devices (al_log w')
    = live_devices (al_log w) ++ (if dev =? 0 then [] else [dev]) /\
    live_contexts (al_log w')
    = live_contexts (al_log w) ++ (if ctx =? 0 then [] else [ctx]).
Proof.
  intros dev ctx Hnull.
  assert (Hor : (dev =? 0) || (ctx =? 0) = true).
  { destruct Hnull as [-> | ->]; [reflexivity | apply orb_true_r]. }
  unfold OpenAL_Factory_ctor. run. cbn.
  fold dev. fold ctx. rewrite Hor. cbn.
  eexists. split; [reflexivity |]. cbn.
  rewrite <- app_assoc. cbn [app].
  repeat split.
  - unfold live_devices. rewrite live_devices_from_app. cbn.
    destruct (dev =? 0); [rewrite app_nil_r |]; reflexivity.
  - unfold live_contexts. rewrite live_contexts_from_app. cbn.
    destruct (ctx =? 0); [rewrite app_nil_r |]; reflexivity.
Qed.

Lemma factory_setup_failure_witness :
  exists w',
    OpenAL_Factory_ctor no_context_driver true initial_world
    = Throw setup_failure w' /\
    al_log w' = [AlcOpenDevice 1; AlcCreateContext 1 0] /\
    al_error w' = 0 /\ heap w' = ∅ /\
    live_devices (al_log w') = [1] /\
    live_contexts (al_log w') = [].
Proof.
  apply (factory_setup_failure no_context_driver initial_world).
  right. reflexivity.
Defined.

(** * Volume *)

Lemma SFcompare_antisym (a b : float) :
  SFcompare b a = option_map CompOpp (SFcompare a b).
Proof.
  destruct a as [[] | [] | | [] m1 e1], b as [[] | [] | | [] m2 e2];
    cbn; try reflexivity;
    rewrite (Z.compare_antisym e1 e2);
    destruct (e1 ?= e2); cbn; try reflexivity;
    pose proof (Pos.compare_cont_antisym m1 m2 Eq) as Ha; cbn in Ha;
    rewrite <- Ha; destruct (Pos.compare_cont Eq m1 m2); reflexivity.
Qed.

Lemma SFleb_not_ltb (a b : float) : SFleb a b = true -> SFltb b a = false.
Proof.
  unfold SFleb, SFltb. rewrite (SFcompare_antisym a b).
  destruct (SFcompare a b) as [[] |]; cbn; congruence.
Qed.

Lemma above_one_not_below_zero (v : float) :
  SFltb f_one v = true -> SFltb v f_zero = false.
Proof.
  destruct v as [[] | [] | | [] m e]; cbn; intros H;
    try discriminate; reflexivity.
Qed.

(** C9: the gain handed to the device is min(max(v, 0.0), 1.0) for every
    float v: 0.0 below the range, 1.0 above it, v itself inside it; the
    call is issued for every v, nothing is rejected for being out of
    range.  (min and max are [std_min] and [std_max]; like them the code
    hands a NaN on as it is.) *)
Theorem setVolume_clamps (drv : Driver) (s : OpenAL_Sound) (v : float)
  (w : World) :
  setVolume_gain v = clamp_spec v /\
  (SFltb v f_zero = true -> setVolume_gain v = f_zero) /\
  (SFltb f_one v = true -> setVolume_gain v = f_one) /\
  (SFleb f_zero v = true -> SFleb v f_one = true -> setVolume_gain v = v) /\
  setVolume_gain f_minus_half = f_zero /\
  setVolume_gain f_1_7 = f_one /\
  setVolume_gain f_0_3 = f_0_3 /\
  (exists w1,
      al_call drv (AlSourcef (inst s) AL_GAIN (clamp_spec v)) w = Ok tt w1 /\
      setVolume drv s v w = checkALError drv "setting volume" w1).
Proof.
  assert (Heq : setVolume_gain v = clamp_spec v).
  { unfold setVolume_gain, clamp_spec, std_min, std_max.
    destruct (SFltb f_one v) eqn:H1.
    - rewrite (above_one_not_below_zero v H1), H1. reflexivity.
    - destruct (SFltb v f_zero) eqn:H2; [reflexivity |].
      rewrite H1. reflexivity. }
  split; [exact Heq |]. repeat split.
  - intros Hlt. unfold setVolume_gain.
    destruct (SFltb f_one v) eqn:H1.
    + rewrite (above_one_not_below_zero v H1) in Hlt. discriminate.
    + rewrite Hlt. reflexivity.
  - intros Hgt. unfold setVolume_gain. rewrite Hgt. reflexivity.
  - intros Hlo Hhi. unfold setVolume_gain.
    rewrite (SFleb_not_ltb _ _ Hhi), (SFleb_not_ltb _ _ Hlo). reflexivity.
  - rewrite <- Heq. eexists. split; reflexivity.
Qed.

Lemma setVolume_clamps_witness :
  setVolume_gain f_minus_half = f_zero /\
  setVolume_gain f_1_7 = f_one /\
  setVolume_gain f_0_3 = f_0_3.
Proof.
  pose (s := {| inst := 1; bufferID := 1; refCnt := Null |}).
  split; [| split].
  - destruct (setVolume_clamps plain_driver s f_minus_half initial_world)
      as (_ & Hlow & _).
    apply Hlow. reflexivity.
  - destruct (setVolume_clamps plain_driver s f_1_7 initial_world)
      as (_ & _ & Hhigh & _).
    apply Hhigh. reflexivity.
  - destruct (setVolume_clamps plain_driver s f_0_3 initial_world)
      as (_ & _ & _ & Hin & _).
    apply Hin; reflexivity.
Defined.

(** * Playback instances and the shared counter *)

Lemma checkALError_Ok (drv : Driver) (d : string) (w w' : World) (u : unit) :
  checkALError drv d w = Ok u w' ->
  al_error w = AL_NO_ERROR /\
  w' = {| al_error := AL_NO_ERROR; al_log := al_log w ++ [AlGetError];
          heap := heap w; next_block := next_block w; freed := freed w |}.
Proof.
  run. destruct (al_error w =? AL_NO_ERROR) eqn:E; cbn.
  - intros H. injection H as _ <-. apply Z.eqb_eq in E. split; [exact E |].
    reflexivity.
  - destruct (drv_errmsg drv (al_error w)); cbn; discriminate.
Qed.

Lemma checkALError_clean (drv : Driver) (d : string) (w : World) :
  al_error w = AL_NO_ERROR ->
  checkALError drv d w
  = Ok tt {| al_error := AL_NO_ERROR; al_log := al_log w ++ [AlGetError];
             heap := heap w; next_block := next_block w;
             freed := freed w |}.
Proof. intros H. run. rewrite H. reflexivity. Qed.

Lemma checkALError_raises (drv : Driver) (d : string) (w : World) :
  al_error w <> AL_NO_ERROR ->
  exists w',
    checkALError drv d w = Throw (gate_failure drv (al_error w) d) w' /\
    heap w' = heap w /\ freed w' = freed w.
Proof.
  intros Hne. apply Z.eqb_neq in Hne. unfold gate_failure. run.
  rewrite Hne. cbn.
  destruct (drv_errmsg drv (al_error w)); cbn;
    eexists; repeat split.
Qed.

Lemma uploads_app (l1 l2 : list ALCall) :
  uploads (l1 ++ l2) = (uploads l1 + uploads l2)%nat.
Proof. unfold uploads. rewrite List.filter_app, length_app. reflexivity. Qed.

Lemma bind_Ok {A B} (m : M A) (k : A -> M B) (w w' : World) (b : B) :
  bind m k w = Ok b w' ->
  exists a w1, m w = Ok a w1 /\ k a w1 = Ok b w'.
Proof.
  unfold bind. destruct (m w) as [a w1 | | |]; try discriminate.
  intros H. exists a, w1. split; [reflexivity | exact H].
Qed.

Lemma al_call_Ok (drv : Driver) (c : ALCall) (w w' : World) (u : unit) :
  al_call drv c w = Ok u w' ->
  al_log w' = al_log w ++ [c] /\ heap w' = heap w /\ freed w' = freed w
  /\ next_block w' = next_block w.
Proof. unfold al_call. intros H. injection H as _ <-. repeat split. Qed.

Lemma alGenSources_Ok (drv : Driver) (w w' : World) (n : ALuint) :
  alGenSources drv w = Ok n w' ->
  al_log w' = al_log w ++ [AlGenSources n] /\ heap w' = heap w.
Proof.
  unfold alGenSources, get_log, al_call, bind, ret. cbn.
  intros H. injection H as <- <-. split; reflexivity.
Qed.

(** C1 against the code: constructing a clone leaves the integer in the
    shared counter as it was (not one greater); what is advanced is the
    clone's own pointer, which ends up one past the counter.  No sample
    data is uploaded. *)
Theorem clone_ctor_leaves_counter (drv : Driver) (buf : ALuint)
  (b : positive) (v : Z) (w w' : World) (s : OpenAL_Sound) :
  heap w !! b = Some v ->
  OpenAL_Sound_ctor_clone drv buf (Ptr b 0) w = Ok s w' ->
  heap w' !! b = Some v /\
  refCnt s = Ptr b 1 /\
  bufferID s = buf /\
  uploads (al_log w') = uploads (al_log w).
Proof.
  intros Hv H. unfold OpenAL_Sound_ctor_clone in H.
  apply bind_Ok in H as (u0 & w0 & Hassert & H).
  cbn in Hassert. injection Hassert as _ <-.
  apply bind_Ok in H as (p & w1 & Hincr & H).
  unfold deref_postincr in Hincr. rewrite Hv in Hincr.
  injection Hincr as <- <-.
  apply bind_Ok in H as (i & w2 & Hgen & H).
  apply alGenSources_Ok in Hgen as [Hlog2 Hheap2].
  apply bind_Ok in H as (u3 & w3 & Hchk3 & H).
  apply checkALError_Ok in Hchk3 as [_ ->].
  apply bind_Ok in H as (u4 & w4 & Hcall & H).
  apply al_call_Ok in Hcall as (Hlog4 & Hheap4 & _). cbn in Hlog4, Hheap4.
  apply bind_Ok in H as (u5 & w5 & Hchk5 & H).
  apply checkALError_Ok in Hchk5 as [_ ->].
  injection H as <- <-. cbn [refCnt bufferID heap al_log].
  rewrite Hheap4, Hheap2, Hlog4, Hlog2.
  repeat split; [exact Hv |].
  rewrite !uploads_app. cbn. lia.
Qed.

Lemma clone_ctor_leaves_counter_witness :
  exists a b w0 w1,
    OpenAL_Sound_ctor plain_driver (source_of 2 16) initial_world = Ok a w0 /\
    counter_of a w0 = Some 1 /\
    clone plain_driver a w0 = Ok b w1 /\
    counter_of a w1 = Some 1 /\
    refCnt a = Ptr 1 0 /\ refCnt b = Ptr 1 1 /\
    uploads (al_log w1) = uploads (al_log w0).
Proof.
  destruct (OpenAL_Sound_ctor plain_driver (source_of 2 16) initial_world)
    as [a w0 | | |] eqn:Ea; vm_compute in Ea; try discriminate.
  injection Ea as <- <-.
  match goal with
  | |- exists a' b' w0' w1', Ok ?a ?w0 = _ /\ _ =>
      destruct (clone plain_driver a w0) as [b w1 | | |] eqn:Eb;
      [ assert (Hv : heap w0 !! 1%positive = Some 1)
          by (vm_compute; reflexivity);
        destruct (clone_ctor_leaves_counter plain_driver 2 1%positive 1
                    w0 w1 b Hv Eb) as (Hcnt & Hptr & _ & Hup);
        exists a, b, w0, w1
      | vm_compute in Eb; discriminate .. ]
  end.
  repeat split; try assumption.
Defined.

(** C2 against the code: with an original and one clone alive the counter
    still reads 1; destroying the original takes it to zero, so the
    buffer is deleted and the counter storage freed while the clone, bound
    to the same buffer, still exists.  Destroying the clone first
    decrements through its one-past-the-end pointer, which is undefined. *)
Theorem buffer_released_before_last_owner :
  exists a b w0 w,
    original_and_clone plain_driver initial_world = Ok (a, b) w0 /\
    bufferID b = bufferID a /\
    counter_of a w0 = Some 1 /\
    buffer_deletions (bufferID a) (al_log w0) = 0%nat /\
    original_clone_destroy_original plain_driver initial_world
    = Ok (a, b) w /\
    buffer_deletions (bufferID a) (al_log w) = 1%nat /\
    freed w = [1%positive] /\
    counter_of a w = None /\
    original_clone_destroy_clone plain_driver initial_world = Undefined.
Proof.
  do 4 eexists.
  split; [vm_compute; reflexivity |].
  split; [reflexivity |].
  split; [vm_compute; reflexivity |].
  split; [reflexivity |].
  split; [vm_compute; reflexivity |].
  split; [reflexivity |].
  split; [reflexivity |].
  split; vm_compute; reflexivity.
Qed.

(** C7, as stated, fails: an error raised while stopping the source stays
    pending, and the gate after the buffer deletion of the last owner
    raises it out of the destructor. *)
Lemma dtor_raises_on_last_owner :
  exists w',
    construct_destroy stop_fault_driver initial_world
    = Throw (gate_message "Invalid Name" "deleting buffer") w'.
Proof. eexists. vm_compute. reflexivity. Qed.

(** C7, amended: stopping and releasing the source are not gate-checked,
    and a destruction that does not take the counter to zero returns
    normally whatever the device reports.  The destruction that takes the
    counter to zero gate-checks the buffer deletion: it returns normally
    when no device error is pending after that call, and when one is
    pending it throws the gate's failure for that error under the
    description "deleting buffer", leaving the counter storage unfreed.
    ([Throw] is the exception leaving the destructor's body: built as
    C++98/03 it propagates to the caller, built as C++11 or later, where
    destructors are noexcept, it ends the program in std::terminate.) *)
Theorem dtor_raises_only_at_buffer_gate (drv : Driver) (s : OpenAL_Sound)
  (b : positive) (v : Z) (w : World) :
  refCnt s = Ptr b 0 -> heap w !! b = Some v -> v <> INT_MIN ->
  let w2 := al_calls drv [AlSourceStop (inst s); AlDeleteSources (inst s)] w in
  let w3 := al_calls drv [AlSourceStop (inst s); AlDeleteSources (inst s);
                          AlDeleteBuffers (bufferID s)] w in
  (v <> 1 ->
   OpenAL_Sound_dtor drv s w
   = Ok tt (set_heap (<[b := v - 1]> (heap w)) w2)) /\
  (v = 1 -> al_error w3 = AL_NO_ERROR ->
   exists w',
     OpenAL_Sound_dtor drv s w = Ok tt w' /\
     al_log w' = al_log w3 ++ [AlGetError] /\
     heap w' !! b = None /\ freed w' = freed w ++ [b]) /\
  (v = 1 -> al_error w3 <> AL_NO_ERROR ->
   exists w',
     OpenAL_Sound_dtor drv s w
     = Throw (gate_failure drv (al_error w3) "deleting buffer") w' /\
     heap w' !! b = Some 0 /\ freed w' = freed w).
Proof.
  intros Hp Hv Hmin w2 w3.
  assert (Hmin' : (v =? INT_MIN) = false) by (apply Z.eqb_neq; exact Hmin).
  assert (Hstep : OpenAL_Sound_dtor drv s w
                  = (if v - 1 =? 0
                     then bind (al_call drv (AlDeleteBuffers (bufferID s)))
                            (fun _ => bind (checkALError drv "deleting buffer")
                               (fun _ => delete_int (Ptr b 0)))
                     else ret tt)
                      (set_heap (<[b := v - 1]> (heap w)) w2)).
  { unfold OpenAL_Sound_dtor. rewrite Hp.
    unfold bind at 1. cbn [al_call]. unfold bind at 1. cbn [al_call].
    unfold bind at 1. unfold predecr_deref. cbn [heap]. rewrite Hv, Hmin'.
    reflexivity. }
  assert (Hcall : al_call drv (AlDeleteBuffers (bufferID s))
                    (set_heap (<[b := v - 1]> (heap w)) w2)
                  = Ok tt (set_heap (<[b := v - 1]> (heap w)) w3))
    by reflexivity.
  rewrite Hstep. clear Hstep.
  split; [| split].
  - intros Hne. assert (E : (v - 1 =? 0) = false) by (apply Z.eqb_neq; lia).
    rewrite E. reflexivity.
  - intros -> Herr. change (1 - 1 =? 0) with true. cbv iota.
    unfold bind at 1. rewrite Hcall.
    unfold bind at 1. rewrite checkALError_clean by exact Herr.
    unfold delete_int. cbn [heap set_heap]. rewrite lookup_insert_eq.
    eexists. split; [reflexivity |]. cbn [al_log heap freed].
    repeat split. apply lookup_delete_eq.
  - intros -> Herr. change (1 - 1 =? 0) with true. cbv iota.
    unfold bind at 1. rewrite Hcall.
    unfold bind at 1.
    destruct (checkALError_raises drv "deleting buffer"
                (set_heap (<[b := 1 - 1]> (heap w)) w3))
      as (w' & E & Hh & Hf); [exact Herr |].
    rewrite E. exists w'. split; [reflexivity |].
    rewrite Hh, Hf. unfold set_heap. cbn [heap freed]. split.
    + rewrite lookup_insert_eq. reflexivity.
    + reflexivity.
Qed.

Lemma dtor_raises_only_at_buffer_gate_witness :
  (exists w',
      OpenAL_Sound_dtor stop_fault_driver sample_sound (world_with_counter 2)
      = Ok tt w' /\ heap w' !! 1%positive = Some 1) /\
  (exists w',
      OpenAL_Sound_dtor plain_driver sample_sound (world_with_counter 1)
      = Ok tt w' /\
      al_log w' = [AlSourceStop 6; AlDeleteSources 6; AlDeleteBuffers 2;
                   AlGetError] /\
      heap w' !! 1%positive = None /\ freed w' = [1%positive]) /\
  (exists w',
      OpenAL_Sound_dtor stop_fault_driver sample_sound (world_with_counter 1)
      = Throw (gate_message "Invalid Name" "deleting buffer") w' /\
      heap w' !! 1%positive = Some 0 /\ freed w' = []).
Proof.
  split; [| split].
  - eexists. split.
    + apply (dtor_raises_only_at_buffer_gate stop_fault_driver sample_sound
               1%positive 2 (world_with_counter 2)).
      * reflexivity.
      * vm_compute. reflexivity.
      * discriminate.
      * discriminate.
    + vm_compute. reflexivity.
  - apply (dtor_raises_only_at_buffer_gate plain_driver sample_sound
             1%positive 1 (world_with_counter 1)).
    + reflexivity.
    + vm_compute. reflexivity.
    + discriminate.
    + reflexivity.
    + reflexivity.
  - apply (dtor_raises_only_at_buffer_gate stop_fault_driver sample_sound
             1%positive 1 (world_with_counter 1)).
    + reflexivity.
    + vm_compute. reflexivity.
    + discriminate.
    + reflexivity.
    + vm_compute. discriminate.
Defined.

(** * Further properties of the format negotiation *)

Lemma same_memory_refl (w : World) : same_memory w w.
Proof. repeat split. Qed.

Lemma same_memory_trans (w1 w2 w3 : World) :
  same_memory w1 w2 -> same_memory w2 w3 -> same_memory w1 w3.
Proof.
  intros (Ha & Hb & Hc) (Hd & He & Hf). repeat split; congruence.
Qed.

Lemma uploads_queries (l : list ALCall) :
  forallb is_query l = true -> uploads l = 0%nat.
Proof.
  unfold uploads. induction l as [| c l IH]; [reflexivity |].
  cbn [forallb]. intros H. apply andb_prop in H as [Hc Hl].
  destruct c; try discriminate; cbn; apply IH; exact Hl.
Qed.

(** Lines 44-66 only query the device and leave the memory alone. *)
Lemma resolve_tag_frame (drv : Driver) (ch bits fmt : Z) (w w' : World) :
  resolve_tag drv ch bits w = Ok fmt w' ->
  same_memory w w' /\
  exists queries, al_log w' = al_log w ++ queries
                  /\ forallb is_query queries = true.
Proof.
  run.
  destruct (bits =? 8); destruct (bits =? 16); cbn;
    repeat match goal with
           | |- context [if ?c then _ else _] => destruct c; cbn
           end;
    intros H; injection H as _ <-; cbn;
    (split; [repeat split |]);
    rewrite <- ?app_assoc; cbn [app];
    first [ eexists; split; [reflexivity | reflexivity]
          | exists []; split; [symmetry; apply app_nil_r | reflexivity] ].
Qed.

(** Whatever the device answers, [getALFormat] either returns a non-zero
    tag with the rate the source states, or throws the unsupported input
    format error; either way the calls it has issued are extension and
    enum queries only, and the memory is as it was. *)
Theorem getALFormat_outcome (drv : Driver) (inp : SampleSource) (w : World) :
  match getALFormat drv inp w with
  | Ok fr w' =>
      fst fr <> 0 /\ snd fr = src_rate inp /\ same_memory w w' /\
      uploads (al_log w') = uploads (al_log w) /\
      exists queries, al_log w' = al_log w ++ queries
                      /\ forallb is_query queries = true
  | Throw msg w' =>
      msg = unsupported /\ same_memory w w' /\
      exists queries, al_log w' = al_log w ++ queries
                      /\ forallb is_query queries = true
  | Abort _ => False
  | Undefined => False
  end.
Proof.
  destruct (resolve_tag_total drv (src_channels inp) (src_bits inp) w)
    as (fmt & w' & Hres).
  rewrite (getALFormat_after_resolve _ _ _ _ _ Hres).
  destruct (resolve_tag_frame _ _ _ _ _ _ Hres) as (Hmem & q & Hlog & Hq).
  destruct (fmt =? 0) eqn:E.
  - split; [reflexivity |]. split; [exact Hmem |].
    exists q. split; assumption.
  - apply Z.eqb_neq in E. cbn [fst snd].
    split; [exact E |]. split; [reflexivity |]. split; [exact Hmem |].
    split; [rewrite Hlog, uploads_app, (uploads_queries _ Hq); lia |].
    exists q. split; assumption.
Qed.

(** A bit depth other than 8 or 16 is refused at once: the error is
    thrown without a single device call. *)
Theorem getALFormat_other_depth (drv : Driver) (inp : SampleSource)
  (w : World) :
  src_bits inp <> 8 -> src_bits inp <> 16 ->
  getALFormat drv inp w = Throw unsupported w.
Proof.
  intros H8 H16. apply Z.eqb_neq in H8, H16.
  run. rewrite H8, H16. reflexivity.
Qed.

Lemma getALFormat_other_depth_witness :
  getALFormat mc_driver (source_of 2 24) initial_world
  = Throw unsupported initial_world.
Proof.
  apply (getALFormat_other_depth mc_driver (source_of 2 24) initial_world);
    discriminate.
Defined.

(** Four channels at 8 bits and six channels at either depth are served
    by the extension only: with it the tag is the device's enum value for
    the format name, without it the source is unsupported. *)
Theorem getALFormat_multichannel (drv : Driver) (inp : SampleSource)
  (w : World) :
  (drv_ext drv "AL_EXT_MCFORMATS" = true ->
   (src_channels inp = 4 -> src_bits inp = 8 ->
    exists w', resolve_tag drv (src_channels inp) (src_bits inp) w
               = Ok (drv_enum drv "AL_FORMAT_QUAD8") w') /\
   (src_channels inp = 6 -> src_bits inp = 8 ->
    exists w', resolve_tag drv (src_channels inp) (src_bits inp) w
               = Ok (drv_enum drv "AL_FORMAT_51CHN8") w') /\
   (src_channels inp = 6 -> src_bits inp = 16 ->
    exists w', resolve_tag drv (src_channels inp) (src_bits inp) w
               = Ok (drv_enum drv "AL_FORMAT_51CHN16") w')) /\
  (drv_ext drv "AL_EXT_MCFORMATS" = false ->
   src_channels inp = 4 /\ src_bits inp = 8
   \/ src_channels inp = 6 /\ src_bits inp = 8
   \/ src_channels inp = 6 /\ src_bits inp = 16 ->
   exists w', getALFormat drv inp w = Throw unsupported w').
Proof.
  split.
  - intros Hext. repeat split; intros Hc Hb; run; rewrite Hc, Hb; cbn;
      rewrite Hext; cbn; eexists; reflexivity.
  - intros Hext [[Hc Hb] | [[Hc Hb] | [Hc Hb]]]; run; rewrite Hc, Hb; cbn;
      rewrite Hext; cbn; eexists; reflexivity.
Qed.

Lemma getALFormat_multichannel_witness :
  (exists w', resolve_tag mc_driver 4 8 initial_world = Ok 0x1204 w') /\
  (exists w', resolve_tag mc_driver 6 8 initial_world = Ok 0x120A w') /\
  (exists w', resolve_tag mc_driver 6 16 initial_world = Ok 0x120B w') /\
  (exists w', getALFormat plain_driver (source_of 6 16) initial_world
              = Throw unsupported w').
Proof.
  destruct (getALFormat_multichannel mc_driver (source_of 4 8) initial_world)
    as [Hq8 _].
  destruct (getALFormat_multichannel mc_driver (source_of 6 8) initial_world)
    as [H8 _].
  destruct (getALFormat_multichannel mc_driver (source_of 6 16) initial_world)
    as [H16 _].
  destruct (getALFormat_multichannel plain_driver (source_of 6 16)
              initial_world) as [_ Hno].
  split; [| split; [| split]].
  - apply (Hq8 eq_refl); reflexivity.
  - apply (H8 eq_refl); reflexivity.
  - apply (H16 eq_refl); reflexivity.
  - apply (Hno eq_refl). right. right. split; reflexivity.
Defined.

(** * Controls of a playback instance *)

Lemma checkALError_outcome (drv : Driver) (d : string) (w : World) :
  (al_error w = AL_NO_ERROR -> checkALError drv d w = Ok tt (cleared w)) /\
  (al_error w <> AL_NO_ERROR ->
   exists w', checkALError drv d w
              = Throw (gate_failure drv (al_error w) d) w'
              /\ same_memory w w').
Proof.
  split.
  - intros H. apply checkALError_clean. exact H.
  - intros Hne. apply Z.eqb_neq in Hne. unfold gate_failure. run.
    rewrite Hne. cbn.
    destruct (drv_errmsg drv (al_error w)); cbn;
      eexists; (split; [reflexivity | repeat split]).
Qed.

Lemma gate_checked_intro (drv : Driver) (op : M unit) (calls : list ALCall)
  (d : string) :
  (forall w, op w = checkALError drv d (al_calls drv calls w)) ->
  (forall w, same_memory w (al_calls drv calls w)) ->
  gate_checked drv op calls d.
Proof.
  intros Hop Hmem w w1. rewrite Hop. fold w1.
  destruct (checkALError_outcome drv d w1) as [Hok Hthrow].
  split; [exact Hok |].
  intros Hne. destruct (Hthrow Hne) as (w' & E & Hm).
  exists w'. split; [exact E |].
  apply (same_memory_trans w w1 w'); [apply Hmem | exact Hm].
Qed.

(** Each of play, stop, pause, setPos, setPitch and setRange hands its
    arguments to the device as they are and then runs the gate once: it
    returns normally exactly when no error is pending after its calls, and
    otherwise throws the gate's message under its own description, the
    counters being untouched either way.  setRange issues both distance
    calls before the single gate and never hands on its third argument. *)
Theorem controls_gate_checked (drv : Driver) (s : OpenAL_Sound)
  (x y z a b c pitch : float) :
  gate_checked drv (play drv s) [AlSourcePlay (inst s)] "starting playback" /\
  gate_checked drv (stop drv s) [AlSourceStop (inst s)] "stopping" /\
  gate_checked drv (pause drv s) [AlSourcePause (inst s)] "pausing" /\
  gate_checked drv (setPos drv s x y z)
    [AlSource3f (inst s) AL_POSITION x y z] "setting position" /\
  gate_checked drv (setPitch drv s pitch)
    [AlSourcef (inst s) AL_PITCH pitch] "setting pitch" /\
  gate_checked drv (setRange drv s a b c)
    [AlSourcef (inst s) AL_REFERENCE_DISTANCE a;
     AlSourcef (inst s) AL_MAX_DISTANCE b] "setting sound ranges".
Proof.
  repeat apply conj; apply gate_checked_intro; intros w;
    first [reflexivity | repeat split].
Qed.

Lemma controls_gate_checked_witness :
  (exists w', play plain_driver sample_sound initial_world = Ok tt w'
              /\ al_log w' = [AlSourcePlay 6; AlGetError]) /\
  (exists w', setRange plain_driver sample_sound f_one f_1_7 f_0_3
                (with_error AL_INVALID_NAME initial_world)
              = Throw (gate_message "Invalid Name" "setting sound ranges") w'
              /\ same_memory (with_error AL_INVALID_NAME initial_world) w').
Proof.
  destruct (controls_gate_checked plain_driver sample_sound
              f_one f_one f_one f_one f_1_7 f_0_3 f_one)
    as (Hplay & _ & _ & _ & _ & Hrange).
  split.
  - destruct (Hplay initial_world) as [Hok _].
    eexists. split; [apply Hok; reflexivity | reflexivity].
  - destruct (Hrange (with_error AL_INVALID_NAME initial_world))
      as [_ Hthrow].
    apply Hthrow. discriminate.
Defined.

(** setRepeat is not gate-checked: it returns normally even when the
    device raises an error on the looping call, and that error is thrown
    by the next gate-checked operation under that operation's
    description. *)
Theorem looping_error_surfaces_later (drv : Driver) (s : OpenAL_Sound)
  (rep : bool) (w : World) (e : ALenum) (m : string) :
  al_error w = AL_NO_ERROR ->
  drv_fault drv (al_log w
                 ++ [AlSourcei (inst s) AL_LOOPING (if rep then 1 else 0)])
  = e ->
  e <> AL_NO_ERROR ->
  drv_errmsg drv e = Some m ->
  exists w1,
    setRepeat drv s rep w = Ok tt w1 /\
    al_error w1 = e /\
    exists w2,
      play drv s w1 = Throw (gate_message m "starting playback") w2.
Proof.
  intros Hclean Hfault Hne Hmsg.
  set (looping := AlSourcei (inst s) AL_LOOPING (if rep then 1 else 0)) in *.
  set (w1 := al_calls drv [looping] w).
  assert (He : al_error w1 = e).
  { unfold w1, al_calls. cbn. rewrite Hclean. cbn. exact Hfault. }
  exists w1. split; [reflexivity |]. split; [exact He |].
  set (w2 := al_calls drv [AlSourcePlay (inst s)] w1).
  assert (He2 : al_error w2 = e).
  { change (al_error w2)
      with (if al_error w1 =? AL_NO_ERROR
            then drv_fault drv (al_log w1 ++ [AlSourcePlay (inst s)])
            else al_error w1).
    rewrite He. apply Z.eqb_neq in Hne. rewrite Hne. reflexivity. }
  destruct (checkALError_outcome drv "starting playback" w2) as [_ Hthrow].
  destruct Hthrow as (w3 & E & _); [rewrite He2; exact Hne |].
  exists w3. change (play drv s w1)
    with (checkALError drv "starting playback" w2).
  rewrite E. unfold gate_failure. rewrite He2, Hmsg. reflexivity.
Qed.

Lemma looping_error_surfaces_later_witness :
  exists w1,
    setRepeat loop_fault_driver sample_sound true initial_world = Ok tt w1 /\
    al_error w1 = AL_INVALID_NAME /\
    exists w2,
      play loop_fault_driver sample_sound w1
      = Throw (gate_message "Invalid Name" "starting playback") w2.
Proof.
  apply (looping_error_surfaces_later loop_fault_driver sample_sound true
           initial_world AL_INVALID_NAME "Invalid Name").
  - reflexivity.
  - reflexivity.
  - discriminate.
  - reflexivity.
Defined.

(** isPlaying is a pure query: when the state query raises no error it
    returns normally, true exactly when the device reports AL_PLAYING
    (so false for a paused, stopped or initial source); it never runs the
    gate, so an error pending before it is still pending after it. *)
Theorem isPlaying_query (drv : Driver) (s : OpenAL_Sound) (w : World) :
  drv_fault drv (al_log w ++ [AlGetSourcei (inst s) AL_SOURCE_STATE])
  = AL_NO_ERROR ->
  let state := drv_state drv (al_log w) (inst s) in
  exists w',
    isPlaying drv s w = Ok (state =? AL_PLAYING) w' /\
    al_log w' = al_log w ++ [AlGetSourcei (inst s) AL_SOURCE_STATE] /\
    al_error w' = al_error w /\
    same_memory w w' /\
    (state = AL_PAUSED \/ state = AL_STOPPED \/ state = AL_INITIAL ->
     isPlaying drv s w = Ok false w').
Proof.
  intros Hfault state.
  unfold isPlaying, alGetSourcei, get_log, al_call, bind, ret. cbn.
  rewrite Hfault. fold state.
  eexists. split; [reflexivity |]. cbn.
  split; [reflexivity |].
  split; [destruct (al_error w =? AL_NO_ERROR) eqn:E;
          [apply Z.eqb_eq in E; congruence | reflexivity] |].
  split; [repeat split |].
  intros [-> | [-> | ->]]; reflexivity.
Qed.

Lemma isPlaying_query_witness :
  (exists w', isPlaying (state_driver AL_PLAYING) sample_sound initial_world
              = Ok true w') /\
  (exists w', isPlaying (state_driver AL_PAUSED) sample_sound
                (with_error AL_INVALID_NAME initial_world)
              = Ok false w' /\ al_error w' = AL_INVALID_NAME).
Proof.
  split.
  - destruct (isPlaying_query (state_driver AL_PLAYING) sample_sound
                initial_world eq_refl) as (w' & E & _).
    exists w'. exact E.
  - destruct (isPlaying_query (state_driver AL_PAUSED) sample_sound
                (with_error AL_INVALID_NAME initial_world) eq_refl)
      as (w' & _ & _ & Herr & _ & Hfalse).
    exists w'. split; [apply Hfalse; left; reflexivity | exact Herr].
Defined.

(** The gain lines 137-138 compute is never outside [0.0, 1.0] unless the
    volume is a NaN, and clamping a clamped volume changes nothing. *)
Theorem setVolume_gain_range (v : float) :
  (v <> S754_nan ->
   SFleb f_zero (setVolume_gain v) = true /\
   SFleb (setVolume_gain v) f_one = true) /\
  setVolume_gain (setVolume_gain v) = setVolume_gain v.
Proof.
  assert (Hlow : v <> S754_nan -> SFltb v f_zero = false ->
                 SFleb f_zero v = true).
  { destruct v as [[] | [] | | [] m e]; cbn; intros Hn H;
      try discriminate; try reflexivity. contradiction. }
  assert (Hhigh : v <> S754_nan -> SFltb f_one v = false ->
                  SFleb v f_one = true).
  { unfold SFleb, SFltb. rewrite (SFcompare_antisym f_one v).
    destruct (SFcompare f_one v) as [[] |] eqn:E; cbn; intros Hn H;
      try discriminate; try reflexivity.
    destruct v; cbn in E; try discriminate. contradiction. }
  unfold setVolume_gain.
  destruct (SFltb f_one v) eqn:H1.
  - split; [intros _; split |]; reflexivity.
  - destruct (SFltb v f_zero) eqn:H2.
    + split; [intros _; split |]; reflexivity.
    + rewrite H1, H2. split; [| reflexivity].
      intros Hn. split; [apply Hlow | apply Hhigh];
        first [assumption | reflexivity].
Qed.

Lemma setVolume_gain_range_witness :
  SFleb f_zero (setVolume_gain f_1_7) = true /\
  SFleb (setVolume_gain f_1_7) f_one = true.
Proof.
  destruct (setVolume_gain_range f_1_7) as [Hrange _].
  apply Hrange. discriminate.
Defined.

(** * Further properties of the device and context life cycle *)

Lemma filter_out_fresh (d : handle) (l : list handle) :
  ~ In d l -> List.filter (fun x => negb (x =? d)) (l ++ [d]) = l.
Proof.
  intros Hfresh. rewrite List.filter_app. cbn. rewrite Z.eqb_refl. cbn.
  rewrite app_nil_r.
  induction l as [| x l IH]; [reflexivity |].
  cbn. destruct (x =? d) eqn:E.
  - apply Z.eqb_eq in E. exfalso. apply Hfresh. left. exact E.
  - cbn. f_equal. apply IH. intros Hin. apply Hfresh. right. exact Hin.
Qed.

Lemma factory_ctor_Ok (drv : Driver) (w w1 : World) (f : OpenAL_Factory) :
  OpenAL_Factory_ctor drv true w = Ok f w1 ->
  let dev := drv_open drv (al_log w) in
  let ctx := drv_context drv (al_log w ++ [AlcOpenDevice dev]) dev in
  (dev =? 0) = false /\ (ctx =? 0) = false /\
  Device f = Some dev /\ Context f = Some ctx /\ didSetup f = true /\
  w1 = {| al_error := al_error w;
          al_log := al_log w ++ [AlcOpenDevice dev; AlcCreateContext dev ctx;
                                 AlcMakeContextCurrent ctx];
          heap := heap w; next_block := next_block w; freed := freed w |}.
Proof.
  intros H dev ctx. revert H. unfold OpenAL_Factory_ctor. run. cbn.
  fold dev. fold ctx.
  destruct (dev =? 0) eqn:Hdev; cbn; [discriminate |].
  destruct (ctx =? 0) eqn:Hctx; cbn; [discriminate |].
  intros H. injection H as <- <-. cbn.
  rewrite <- !app_assoc. repeat split.
Qed.

(** Construction with setup succeeds exactly when the device and the
    context both come back non-null; it then makes the created context
    current and keeps both handles.  Without setup no device call is
    made.  Either way the capability flags are the same: 3D and loading
    from a sample source are supported, loading from a file or a stream
    and periodic updates are not. *)
Theorem factory_ctor_outcome (drv : Driver) (w : World) :
  let dev := drv_open drv (al_log w) in
  let ctx := drv_context drv (al_log w ++ [AlcOpenDevice dev]) dev in
  (dev <> 0 /\ ctx <> 0 <->
   exists f w', OpenAL_Factory_ctor drv true w = Ok f w') /\
  (forall f w',
      OpenAL_Factory_ctor drv true w = Ok f w' ->
      Device f = Some dev /\ Context f = Some ctx /\
      al_log w' = al_log w ++ [AlcOpenDevice dev; AlcCreateContext dev ctx;
                               AlcMakeContextCurrent ctx] /\
      al_error w' = al_error w /\ same_memory w w') /\
  (exists f, OpenAL_Factory_ctor drv false w = Ok f w) /\
  (forall doSetup f w',
      OpenAL_Factory_ctor drv doSetup w = Ok f w' ->
      didSetup f = doSetup /\ has3D f = true /\ canLoadSource f = true /\
      canLoadFile f = false /\ canLoadStream f = false /\
      needsUpdate f = false).
Proof.
  intros dev ctx. split; [| split; [| split]].
  - split.
    + intros [Hd Hc]. apply Z.eqb_neq in Hd, Hc.
      unfold OpenAL_Factory_ctor. run. cbn. fold dev. fold ctx.
      rewrite Hd, Hc. cbn. do 2 eexists. reflexivity.
    + intros (f & w' & H). apply factory_ctor_Ok in H as (Hd & Hc & _).
      split; apply Z.eqb_neq; assumption.
  - intros f w' H.
    apply factory_ctor_Ok in H as (_ & _ & Hd & Hc & _ & ->).
    repeat split; assumption.
  - eexists. reflexivity.
  - intros [] f w' H.
    + destruct (factory_ctor_Ok _ _ _ _ H) as (Hdz & Hcz & _).
      revert H. unfold OpenAL_Factory_ctor. run. cbn. rewrite Hdz, Hcz. cbn.
      intros H. injection H as <- _. repeat split.
    + injection H as <- _. repeat split.
Qed.

Lemma factory_ctor_outcome_witness :
  (exists f w', OpenAL_Factory_ctor plain_driver true initial_world
                = Ok f w') /\
  ~ (exists f w', OpenAL_Factory_ctor no_context_driver true initial_world
                  = Ok f w').
Proof.
  destruct (factory_ctor_outcome plain_driver initial_world) as [[Hyes _] _].
  destruct (factory_ctor_outcome no_context_driver initial_world)
    as [[_ Hno] _].
  split.
  - apply Hyes. split; discriminate.
  - intros H. destruct (Hno H) as [_ Hc]. apply Hc. reflexivity.
Defined.

(** A Factory set up and then destroyed leaves the device as it found it:
    when the handles it got were not already live, the devices and
    contexts live after the destructor are those live before the
    constructor. *)
Theorem factory_setup_teardown_balanced (drv : Driver) (w w1 : World)
  (f : OpenAL_Factory) :
  let dev := drv_open drv (al_log w) in
  let ctx := drv_context drv (al_log w ++ [AlcOpenDevice dev]) dev in
  OpenAL_Factory_ctor drv true w = Ok f w1 ->
  ~ In dev (live_devices (al_log w)) ->
  ~ In ctx (live_contexts (al_log w)) ->
  exists w2,
    OpenAL_Factory_dtor f w1 = Ok tt w2 /\
    live_devices (al_log w2) = live_devices (al_log w) /\
    live_contexts (al_log w2) = live_contexts (al_log w) /\
    al_error w2 = al_error w /\ same_memory w w2.
Proof.
  intros dev ctx H Hdev Hctx.
  apply factory_ctor_Ok in H as (Hdz & Hcz & Hd & Hc & Hs & ->).
  fold dev in Hdz, Hd. fold dev ctx in Hcz, Hc.
  unfold OpenAL_Factory_dtor. rewrite Hs, Hd, Hc. run. cbn.
  rewrite Hdz, Hcz. cbn.
  eexists. split; [reflexivity |]. cbn.
  fold dev. fold ctx. rewrite <- !app_assoc. cbn [app].
  unfold live_devices, live_contexts.
  rewrite live_devices_from_app, live_contexts_from_app. cbn.
  rewrite Hdz, Hcz.
  split; [apply filter_out_fresh; exact Hdev |].
  split; [apply filter_out_fresh; exact Hctx |].
  repeat split.
Qed.

Lemma factory_setup_teardown_balanced_witness :
  exists f w1 w2,
    OpenAL_Factory_ctor plain_driver true initial_world = Ok f w1 /\
    OpenAL_Factory_dtor f w1 = Ok tt w2 /\
    live_devices (al_log w2) = [] /\ live_contexts (al_log w2) = [].
Proof.
  destruct (OpenAL_Factory_ctor plain_driver true initial_world)
    as [f w1 | | |] eqn:E; vm_compute in E; try discriminate.
  destruct (factory_setup_teardown_balanced plain_driver initial_world w1 f)
    as (w2 & Hrun & Hdev & Hctx & _).
  - vm_compute. exact E.
  - intros [].
  - intros [].
  - exists f, w1, w2. repeat split; assumption.
Defined.

(** * Construction and destruction of playback instances *)

Lemma alGenBuffers_Ok (drv : Driver) (w w' : World) (n : ALuint) :
  alGenBuffers drv w = Ok n w' ->
  n = drv_gen drv (al_log w) /\ w' = al_calls drv [AlGenBuffers n] w.
Proof.
  unfold alGenBuffers, get_log, al_call, bind, ret. cbn.
  intros H. injection H as <- <-. split; reflexivity.
Qed.

Lemma alGenSources_Ok_world (drv : Driver) (w w' : World) (n : ALuint) :
  alGenSources drv w = Ok n w' ->
  n = drv_gen drv (al_log w) /\ w' = al_calls drv [AlGenSources n] w.
Proof.
  unfold alGenSources, get_log, al_call, bind, ret. cbn.
  intros H. injection H as <- <-. split; reflexivity.
Qed.

Lemma al_call_Ok_world (drv : Driver) (c : ALCall) (w w' : World) (u : unit) :
  al_call drv c w = Ok u w' -> w' = al_calls drv [c] w.
Proof. unfold al_call. intros H. injection H as _ <-. reflexivity. Qed.

Lemma getALFormat_Ok (drv : Driver) (inp : SampleSource) (w w' : World)
  (fr : Z * Z) :
  getALFormat drv inp w = Ok fr w' ->
  fst fr <> 0 /\ snd fr = src_rate inp /\ same_memory w w' /\
  exists queries, al_log w' = al_log w ++ queries
                  /\ forallb is_query queries = true.
Proof.
  destruct (resolve_tag_total drv (src_channels inp) (src_bits inp) w)
    as (fmt & w1 & Hres).
  rewrite (getALFormat_after_resolve _ _ _ _ _ Hres).
  destruct (resolve_tag_frame _ _ _ _ _ _ Hres) as (Hmem & Hq).
  destruct (fmt =? 0) eqn:E; [discriminate |].
  intros H. injection H as <- <-. apply Z.eqb_neq in E.
  repeat split; try apply Hmem; [exact E | exact Hq].
Qed.

(** A size an ALsizei can hold is handed on as it is. *)
Lemma to_ALsizei_small (n : Z) :
  0 <= n <= ALSIZEI_MAX -> to_ALsizei n = n.
Proof.
  unfold ALSIZEI_MAX, to_ALsizei. intros Hn.
  rewrite Z.mod_small by lia. lia.
Qed.

(** What a successful construction from a sample source has done. *)
Lemma sound_ctor_Ok (drv : Driver) (input : SampleSource) (w w' : World)
  (s : OpenAL_Sound) :
  OpenAL_Sound_ctor drv input w = Ok s w' ->
  exists fmt w1,
    getALFormat drv input w = Ok (fmt, src_rate input) w1 /\
    fmt <> 0 /\ bufferID s <> 0 /\
    refCnt s = Ptr (next_block w) 0 /\
    w' = {| al_error := AL_NO_ERROR;
            al_log := al_log w1 ++
              [AlGenBuffers (bufferID s); AlGetError;
               AlBufferData (bufferID s) fmt (src_data input)
                 (to_ALsizei (size_of (src_data input))) (src_rate input);
               AlGetError;
               AlGenSources (inst s); AlGetError;
               AlSourcei (inst s) AL_BUFFER (bufferID s); AlGetError];
            heap := <[next_block w := 1]> (heap w);
            next_block := Pos.succ (next_block w);
            freed := freed w |}.
Proof.
  intros H. unfold OpenAL_Sound_ctor in H.
  apply bind_Ok in H as (fr & w1 & Hfmt & H).
  destruct (getALFormat_Ok _ _ _ _ _ Hfmt) as (Hnz & Hrate & Hmem & _).
  destruct fr as [fmt rate]. cbn [fst snd] in *. subst rate.
  destruct Hmem as (Hheap & Hfreed & Hnext).
  apply bind_Ok in H as (b & w2 & Hgen & H).
  apply alGenBuffers_Ok in Hgen as [_ ->].
  apply bind_Ok in H as (u3 & w3 & Hchk & H).
  apply checkALError_Ok in Hchk as [_ ->].
  apply bind_Ok in H as (u4 & w4 & Hassert & H).
  unfold c_assert in Hassert.
  destruct (negb (b =? 0)) eqn:Hb; [| discriminate].
  injection Hassert as _ <-.
  apply bind_Ok in H as (u5 & w5 & Hdata & H).
  assert (Hw5 : w5 = al_calls drv
                  [AlBufferData b fmt (src_data input)
                     (to_ALsizei (size_of (src_data input)))
                     (src_rate input)]
                  {| al_error := AL_NO_ERROR;
                     al_log := al_log (al_calls drv [AlGenBuffers b] w1)
                               ++ [AlGetError];
                     heap := heap (al_calls drv [AlGenBuffers b] w1);
                     next_block :=
                       next_block (al_calls drv [AlGenBuffers b] w1);
                     freed := freed (al_calls drv [AlGenBuffers b] w1) |}).
  { destruct (hasPtr input); apply al_call_Ok_world in Hdata; exact Hdata. }
  subst w5. clear Hdata.
  apply bind_Ok in H as (u6 & w6 & Hchk & H).
  apply checkALError_Ok in Hchk as [_ ->].
  apply bind_Ok in H as (i & w7 & Hgen & H).
  apply alGenSources_Ok_world in Hgen as [_ ->].
  apply bind_Ok in H as (u8 & w8 & Hchk & H).
  apply checkALError_Ok in Hchk as [_ ->].
  apply bind_Ok in H as (u9 & w9 & Hcall & H).
  apply al_call_Ok_world in Hcall as ->.
  apply bind_Ok in H as (u10 & w10 & Hchk & H).
  apply checkALError_Ok in Hchk as [_ ->].
  apply bind_Ok in H as (p & w11 & Hnew & H).
  unfold new_int in Hnew. cbn in Hnew. injection Hnew as <- <-.
  apply bind_Ok in H as (u12 & w12 & Hstore & H).
  unfold store_int in Hstore. cbn in Hstore.
  rewrite lookup_insert_eq in Hstore. injection Hstore as _ <-.
  injection H as <- <-.
  exists fmt, w1. cbn.
  split; [exact Hfmt |]. split; [exact Hnz |].
  split; [apply Z.eqb_neq; destruct (b =? 0); [discriminate | reflexivity] |].
  rewrite Hnext, Hheap, Hfreed. split; [reflexivity |].
  unfold set_heap. cbn. rewrite insert_insert_eq.
  rewrite <- !app_assoc. reflexivity.
Qed.

Lemma releases_app (l1 l2 : list ALCall) :
  releases (l1 ++ l2) = (releases l1 + releases l2)%nat.
Proof. unfold releases. rewrite List.filter_app, length_app. reflexivity. Qed.

Lemma releases_queries (l : list ALCall) :
  forallb is_query l = true -> releases l = 0%nat.
Proof.
  unfold releases. induction l as [| c l IH]; [reflexivity |].
  cbn [forallb]. intros H. apply andb_prop in H as [Hc Hl].
  destruct c; try discriminate; cbn; apply IH; exact Hl.
Qed.

Lemma quiet_refl (w : World) : quiet w w.
Proof. split; [apply same_memory_refl | reflexivity]. Qed.

Lemma quiet_trans (w1 w2 w3 : World) :
  quiet w1 w2 -> quiet w2 w3 -> quiet w1 w3.
Proof.
  intros [Hm1 Hr1] [Hm2 Hr2]. split.
  - apply (same_memory_trans w1 w2 w3); assumption.
  - congruence.
Qed.

Lemma quiet_call (drv : Driver) (c : ALCall) (w : World) :
  is_release c = false -> quiet w (al_calls drv [c] w).
Proof.
  intros Hc. split; [repeat split |].
  change (al_log (al_calls drv [c] w)) with (al_log w ++ [c]).
  rewrite releases_app. unfold releases at 2. cbn. rewrite Hc. cbn. lia.
Qed.

Lemma quiet_cleared (w : World) : quiet w (cleared w).
Proof.
  split; [repeat split |]. unfold cleared. cbn [al_log].
  rewrite releases_app. cbn. lia.
Qed.

(** The gate either passes, leaving the register clear, or throws; it
    writes no memory and releases nothing. *)
Lemma checkALError_quiet (drv : Driver) (d : string) (w : World) :
  outcome (fun _ w' => w' = cleared w) (quiet w) (checkALError drv d w).
Proof.
  run. destruct (al_error w =? AL_NO_ERROR); cbn; [reflexivity |].
  destruct (drv_errmsg drv (al_error w)); cbn [outcome];
    (split; [repeat split |]); cbn [al_log];
    rewrite !releases_app; cbn; lia.
Qed.

Lemma quiet_bind {A B} (m : M A) (k : A -> M B) (Q : B -> World -> Prop)
  (w0 w : World) :
  outcome (fun _ w1 => quiet w0 w1) (quiet w0) (m w) ->
  (forall a w1, quiet w0 w1 -> m w = Ok a w1 ->
                outcome Q (quiet w0) (k a w1)) ->
  outcome Q (quiet w0) (bind m k w).
Proof.
  intros Hm Hk. unfold bind.
  destruct (m w) as [a w1 | msg w1 | w1 |]; cbn in *;
    [apply Hk; [exact Hm | reflexivity] | exact Hm | exact Hm | exact Hm].
Qed.

Lemma quiet_gate (drv : Driver) (d : string) (w0 w : World) :
  quiet w0 w ->
  outcome (fun _ w1 => quiet w0 w1) (quiet w0) (checkALError drv d w).
Proof.
  intros Hq. pose proof (checkALError_quiet drv d w) as H.
  destruct (checkALError drv d w) as [u w1 | msg w1 | w1 |]; cbn in *.
  - subst w1. apply (quiet_trans w0 w); [exact Hq | apply quiet_cleared].
  - apply (quiet_trans w0 w); assumption.
  - apply (quiet_trans w0 w); assumption.
  - exact H.
Qed.

Lemma quiet_al_call (drv : Driver) (c : ALCall) (w0 w : World) :
  is_release c = false -> quiet w0 w ->
  outcome (fun _ w1 => quiet w0 w1) (quiet w0) (al_call drv c w).
Proof.
  intros Hc Hq. cbn.
  apply (quiet_trans w0 w); [exact Hq | apply (quiet_call drv c w Hc)].
Qed.

Lemma quiet_getALFormat (drv : Driver) (inp : SampleSource) (w : World) :
  outcome (fun _ w1 => quiet w w1) (quiet w) (getALFormat drv inp w).
Proof.
  destruct (resolve_tag_total drv (src_channels inp) (src_bits inp) w)
    as (fmt & w1 & Hres).
  rewrite (getALFormat_after_resolve _ _ _ _ _ Hres).
  destruct (resolve_tag_frame _ _ _ _ _ _ Hres) as (Hmem & q & Hlog & Hq).
  assert (Hquiet : quiet w w1).
  { split; [exact Hmem |].
    rewrite Hlog, releases_app, (releases_queries _ Hq). lia. }
  destruct (fmt =? 0); exact Hquiet.
Qed.

(** For a source whose size an ALsizei can hold (line 203 and line 211
    narrow [size()] to that 32-bit int), a constructed instance holds a
    non-zero buffer with the whole sample data of its source uploaded
    exactly once, with its full size (through the pointer or through the
    buffering adapter), one source bound to that buffer, and a fresh
    counter that reads 1; every gate has passed, so no error is
    pending. *)
Theorem sound_ctor_success (drv : Driver) (input : SampleSource)
  (w w' : World) (s : OpenAL_Sound) :
  size_of (src_data input) <= ALSIZEI_MAX ->
  OpenAL_Sound_ctor drv input w = Ok s w' ->
  exists fmt w1,
    getALFormat drv input w = Ok (fmt, src_rate input) w1 /\
    al_log w' = al_log w1 ++
      [AlGenBuffers (bufferID s); AlGetError;
       AlBufferData (bufferID s) fmt (src_data input)
         (size_of (src_data input)) (src_rate input);
       AlGetError;
       AlGenSources (inst s); AlGetError;
       AlSourcei (inst s) AL_BUFFER (bufferID s); AlGetError] /\
    fmt <> 0 /\ bufferID s <> 0 /\
    uploads (al_log w') = S (uploads (al_log w)) /\
    al_error w' = AL_NO_ERROR /\
    refCnt s = Ptr (next_block w) 0 /\
    counter_of s w' = Some 1 /\
    freed w' = freed w.
Proof.
  intros Hsize H.
  destruct (sound_ctor_Ok _ _ _ _ _ H)
    as (fmt & w1 & Hfmt & Hnz & Hb & Hp & ->).
  destruct (getALFormat_Ok _ _ _ _ _ Hfmt) as (_ & _ & _ & q & Hlog & Hq).
  rewrite to_ALsizei_small by (unfold size_of in *; lia).
  exists fmt, w1. cbn [al_log al_error freed].
  repeat split; try assumption.
  - rewrite !uploads_app, Hlog, uploads_app, (uploads_queries _ Hq).
    cbn. lia.
  - unfold counter_of. rewrite Hp. cbn. apply lookup_insert_eq.
Qed.

Lemma sound_ctor_success_witness :
  exists s w' fmt w1,
    OpenAL_Sound_ctor plain_driver
      {| src_rate := 22050; src_channels := 1; src_bits := 8;
         hasPtr := false; src_data := [7; 8; 9] |} initial_world
    = Ok s w' /\
    al_log w' = al_log w1 ++
      [AlGenBuffers (bufferID s); AlGetError;
       AlBufferData (bufferID s) fmt [7; 8; 9] 3 22050; AlGetError;
       AlGenSources (inst s); AlGetError;
       AlSourcei (inst s) AL_BUFFER (bufferID s); AlGetError] /\
    counter_of s w' = Some 1.
Proof.
  destruct (OpenAL_Sound_ctor plain_driver
              {| src_rate := 22050; src_channels := 1; src_bits := 8;
                 hasPtr := false; src_data := [7; 8; 9] |} initial_world)
    as [s w' | | |] eqn:E; [| vm_compute in E; discriminate ..].
  destruct (sound_ctor_success plain_driver
              {| src_rate := 22050; src_channels := 1; src_bits := 8;
                 hasPtr := false; src_data := [7; 8; 9] |}
              initial_world w' s)
    as (fmt & w1 & _ & Hlog & _ & _ & _ & _ & _ & Hcnt & _).
  - unfold size_of, ALSIZEI_MAX. cbn. lia.
  - exact E.
  - exists s, w', fmt, w1. repeat split; assumption.
Defined.

(** Construction never runs into undefined behaviour, and when it fails
    (by an exception or by the assert) it has written no memory, so no
    counter exists, and it has released nothing: a buffer or source
    generated before the failure is still on the device. *)
Theorem sound_ctor_failure_is_quiet (drv : Driver) (input : SampleSource)
  (w : World) :
  outcome (fun s w' => counter_of s w' = Some 1
                       /\ releases (al_log w') = releases (al_log w))
    (quiet w) (OpenAL_Sound_ctor drv input w).
Proof.
  assert (Hfail : outcome (fun _ _ => True) (quiet w)
                    (OpenAL_Sound_ctor drv input w)).
  { unfold OpenAL_Sound_ctor.
    apply quiet_bind; [apply quiet_getALFormat |]. intros fr w1 Hq1 _.
    apply quiet_bind.
    { unfold alGenBuffers, get_log, bind, ret. cbn.
      apply (quiet_trans w w1); [exact Hq1 | apply quiet_call; reflexivity]. }
    intros b w2 Hq2 _.
    apply quiet_bind; [apply quiet_gate; exact Hq2 |]. intros _ w3 Hq3 _.
    apply quiet_bind.
    { unfold c_assert. destruct (negb (b =? 0)); exact Hq3. }
    intros _ w4 Hq4 _.
    apply quiet_bind.
    { destruct (hasPtr input); apply quiet_al_call;
        first [reflexivity | exact Hq4]. }
    intros _ w5 Hq5 _.
    apply quiet_bind; [apply quiet_gate; exact Hq5 |]. intros _ w6 Hq6 _.
    apply quiet_bind.
    { unfold alGenSources, get_log, bind, ret. cbn.
      apply (quiet_trans w w6); [exact Hq6 | apply quiet_call; reflexivity]. }
    intros i w7 Hq7 _.
    apply quiet_bind; [apply quiet_gate; exact Hq7 |]. intros _ w8 Hq8 _.
    apply quiet_bind;
      [apply quiet_al_call; [reflexivity | exact Hq8] |].
    intros _ w9 Hq9 _.
    apply quiet_bind; [apply quiet_gate; exact Hq9 |]. intros _ w10 Hq10 _.
    unfold bind, new_int, store_int, ret. cbn.
    rewrite lookup_insert_eq. exact I. }
  destruct (OpenAL_Sound_ctor drv input w) as [s w' | msg w' | w' |] eqn:E;
    cbn in *; try exact Hfail.
  destruct (sound_ctor_Ok _ _ _ _ _ E)
    as (fmt & w1 & Hfmt & _ & _ & Hp & ->).
  destruct (getALFormat_Ok _ _ _ _ _ Hfmt) as (_ & _ & _ & q & Hlog & Hq).
  split.
  - unfold counter_of. rewrite Hp. cbn. apply lookup_insert_eq.
  - cbn [al_log]. rewrite releases_app, Hlog, releases_app,
      (releases_queries _ Hq). cbn. lia.
Qed.

(** An unsupported source is refused before anything is generated: the
    constructor throws the unsupported input format error in the world
    the negotiation left, in which only queries have been issued; for a
    depth other than 8 or 16 not a single device call has been made. *)
Theorem sound_ctor_unsupported (drv : Driver) (input : SampleSource)
  (w : World) :
  (forall w1,
      resolve_tag drv (src_channels input) (src_bits input) w = Ok 0 w1 ->
      OpenAL_Sound_ctor drv input w = Throw unsupported w1 /\
      same_memory w w1 /\
      exists queries, al_log w1 = al_log w ++ queries
                      /\ forallb is_query queries = true) /\
  (src_bits input <> 8 -> src_bits input <> 16 ->
   OpenAL_Sound_ctor drv input w = Throw unsupported w).
Proof.
  split.
  - intros w1 Hres. split.
    + unfold OpenAL_Sound_ctor, bind at 1.
      rewrite (getALFormat_after_resolve _ _ _ _ _ Hres). reflexivity.
    + apply (resolve_tag_frame _ _ _ _ _ _ Hres).
  - intros H8 H16. apply Z.eqb_neq in H8, H16.
    unfold OpenAL_Sound_ctor, bind at 1. run. rewrite H8, H16. reflexivity.
Qed.

Lemma sound_ctor_unsupported_witness :
  (exists w1,
      OpenAL_Sound_ctor plain_driver (source_of 6 16) initial_world
      = Throw unsupported w1 /\
      al_log w1 = [AlIsExtensionPresent "AL_EXT_MCFORMATS"]) /\
  OpenAL_Sound_ctor mc_driver (source_of 2 32) initial_world
  = Throw unsupported initial_world.
Proof.
  destruct (sound_ctor_unsupported plain_driver (source_of 6 16)
              initial_world) as [Hres _].
  destruct (sound_ctor_unsupported mc_driver (source_of 2 32)
              initial_world) as [_ Hdepth].
  split.
  - eexists. split; [apply Hres; reflexivity | reflexivity].
  - apply Hdepth; discriminate.
Defined.

(** When the device hands out the buffer name 0 without raising an error,
    the assert of line 197 stops the program: nothing is uploaded and no
    source is generated. *)
Theorem sound_ctor_asserts_buffer_name (drv : Driver) (input : SampleSource)
  (w w1 : World) (fr : Z * Z) :
  getALFormat drv input w = Ok fr w1 ->
  drv_gen drv (al_log w1) = 0 ->
  al_error (al_calls drv [AlGenBuffers 0] w1) = AL_NO_ERROR ->
  OpenAL_Sound_ctor drv input w
  = Abort (cleared (al_calls drv [AlGenBuffers 0] w1)).
Proof.
  intros Hfmt Hgen Herr.
  unfold OpenAL_Sound_ctor, bind at 1. rewrite Hfmt.
  unfold bind at 1.
  assert (Hb : alGenBuffers drv w1 = Ok 0 (al_calls drv [AlGenBuffers 0] w1)).
  { unfold alGenBuffers, get_log, bind, ret. cbn. rewrite Hgen. reflexivity. }
  rewrite Hb. unfold bind at 1.
  rewrite (checkALError_clean _ _ _ Herr). reflexivity.
Qed.

Lemma sound_ctor_asserts_buffer_name_witness :
  exists w',
    OpenAL_Sound_ctor zero_name_driver (source_of 2 16) initial_world
    = Abort w' /\
    al_log w' = [AlIsExtensionPresent "AL_EXT_MCFORMATS";
                 AlGenBuffers 0; AlGetError].
Proof.
  destruct (getALFormat zero_name_driver (source_of 2 16) initial_world)
    as [fr w1 | | |] eqn:E; vm_compute in E; try discriminate.
  injection E as <- <-.
  eexists. split.
  - match goal with
    | |- _ = Abort ?w' =>
        apply (sound_ctor_asserts_buffer_name zero_name_driver
                 (source_of 2 16) initial_world _ _ eq_refl eq_refl eq_refl)
    end.
  - reflexivity.
Defined.

Lemma dtor_last_owner (drv : Driver) (s : OpenAL_Sound) (b : positive)
  (w : World) :
  refCnt s = Ptr b 0 -> heap w !! b = Some 1 ->
  let w3 := al_calls drv [AlSourceStop (inst s); AlDeleteSources (inst s);
                          AlDeleteBuffers (bufferID s)] w in
  al_error w3 = AL_NO_ERROR ->
  OpenAL_Sound_dtor drv s w
  = Ok tt {| al_error := AL_NO_ERROR; al_log := al_log w3 ++ [AlGetError];
             heap := delete b (heap w); next_block := next_block w;
             freed := freed w ++ [b] |}.
Proof.
  intros Hp Hv w3 Herr.
  set (w2 := al_calls drv [AlSourceStop (inst s); AlDeleteSources (inst s)] w).
  assert (Hstep : OpenAL_Sound_dtor drv s w
                  = bind (al_call drv (AlDeleteBuffers (bufferID s)))
                      (fun _ => bind (checkALError drv "deleting buffer")
                         (fun _ => delete_int (Ptr b 0)))
                      (set_heap (<[b := 0]> (heap w)) w2)).
  { unfold OpenAL_Sound_dtor. rewrite Hp.
    unfold bind at 1. cbn [al_call]. unfold bind at 1. cbn [al_call].
    unfold bind at 1. unfold predecr_deref. cbn [heap]. rewrite Hv.
    reflexivity. }
  assert (Hcall : al_call drv (AlDeleteBuffers (bufferID s))
                    (set_heap (<[b := 0]> (heap w)) w2)
                  = Ok tt (set_heap (<[b := 0]> (heap w)) w3))
    by reflexivity.
  rewrite Hstep. unfold bind at 1. rewrite Hcall.
  unfold bind at 1. rewrite checkALError_clean by exact Herr.
  unfold delete_int. cbn [heap set_heap]. rewrite lookup_insert_eq.
  cbn [al_error al_log heap next_block freed].
  rewrite delete_insert_eq. reflexivity.
Qed.

(** One owner, built and destroyed, gives everything back: when no error
    is pending after the buffer deletion, the destructor of a freshly
    constructed instance stops and releases its source, deletes its
    buffer, frees the counter, and the heap is again what it was before
    the construction. *)
Theorem single_owner_lifecycle (drv : Driver) (input : SampleSource)
  (w w1 : World) (s : OpenAL_Sound) :
  heap w !! next_block w = None ->
  OpenAL_Sound_ctor drv input w = Ok s w1 ->
  al_error (al_calls drv [AlSourceStop (inst s); AlDeleteSources (inst s);
                          AlDeleteBuffers (bufferID s)] w1) = AL_NO_ERROR ->
  exists w2,
    OpenAL_Sound_dtor drv s w1 = Ok tt w2 /\
    al_log w2 = al_log w1 ++ [AlSourceStop (inst s); AlDeleteSources (inst s);
                              AlDeleteBuffers (bufferID s); AlGetError] /\
    heap w2 = heap w /\
    freed w2 = freed w ++ [next_block w] /\
    al_error w2 = AL_NO_ERROR.
Proof.
  intros Hfresh Hctor Herr.
  destruct (sound_ctor_Ok _ _ _ _ _ Hctor)
    as (fmt & w0 & _ & _ & _ & Hp & Hw1).
  assert (Hheap : heap w1 = <[next_block w := 1]> (heap w))
    by (rewrite Hw1; reflexivity).
  assert (Hfreed : freed w1 = freed w) by (rewrite Hw1; reflexivity).
  assert (Hv : heap w1 !! next_block w = Some 1)
    by (rewrite Hheap; apply lookup_insert_eq).
  rewrite (dtor_last_owner drv s (next_block w) w1 Hp Hv Herr).
  eexists. split; [reflexivity |]. cbn [al_log heap freed al_error].
  split; [cbn; rewrite <- !app_assoc; reflexivity |].
  split; [rewrite Hheap, delete_insert_eq; apply delete_id; exact Hfresh |].
  split; [rewrite Hfreed; reflexivity | reflexivity].
Qed.

Lemma single_owner_lifecycle_witness :
  exists s w1 w2,
    OpenAL_Sound_ctor plain_driver (source_of 1 16) initial_world = Ok s w1 /\
    OpenAL_Sound_dtor plain_driver s w1 = Ok tt w2 /\
    heap w2 = heap initial_world /\
    freed w2 = [1%positive].
Proof.
  destruct (OpenAL_Sound_ctor plain_driver (source_of 1 16) initial_world)
    as [s w1 | | |] eqn:E; vm_compute in E; try discriminate.
  injection E as <- <-.
  match goal with
  | |- exists s' w1' w2', Ok ?s ?w1 = _ /\ _ =>
      destruct (single_owner_lifecycle plain_driver (source_of 1 16)
                  initial_world w1 s)
        as (w2 & Hrun & _ & Hheap & Hfreed & _);
      [ reflexivity
      | vm_compute; reflexivity
      | vm_compute; reflexivity
      | exists s, w1, w2; repeat split; assumption ]
  end.
Defined.

(** Cloning needs a counter to point at: with a null pointer the assert
    of line 177 stops the program before any device call.  With a live
    counter the clone constructor is well defined; it generates one
    source and binds it to the buffer it was given, and whether it
    returns or throws it neither allocates nor frees nor writes a
    counter and uploads and releases nothing. *)
Theorem clone_ctor_outcome (drv : Driver) (buf : ALuint) (b : positive)
  (v : Z) (w : World) :
  OpenAL_Sound_ctor_clone drv buf Null w = Abort w /\
  (heap w !! b = Some v ->
   outcome
     (fun s w' =>
        bufferID s = buf /\
        al_log w' = al_log w ++ [AlGenSources (inst s); AlGetError;
                                 AlSourcei (inst s) AL_BUFFER buf;
                                 AlGetError] /\
        al_error w' = AL_NO_ERROR /\ quiet w w')
     (quiet w)
     (OpenAL_Sound_ctor_clone drv buf (Ptr b 0) w)).
Proof.
  split; [reflexivity |]. intros Hv.
  unfold OpenAL_Sound_ctor_clone.
  unfold bind at 1. cbn [c_assert is_null negb].
  unfold bind at 1. unfold deref_postincr. rewrite Hv.
  unfold bind at 1.
  set (i := drv_gen drv (al_log w)).
  assert (Hgen : alGenSources drv w = Ok i (al_calls drv [AlGenSources i] w))
    by reflexivity.
  rewrite Hgen.
  set (w2 := al_calls drv [AlGenSources i] w).
  assert (Hq2 : quiet w w2) by (apply quiet_call; reflexivity).
  unfold bind at 1.
  pose proof (checkALError_quiet drv "creating instance (clone)" w2) as Hg1.
  destruct (checkALError drv "creating instance (clone)" w2)
    as [u3 w3 | msg w3 | w3 |]; cbn [outcome] in *;
    [| apply (quiet_trans w w2); assumption
     | apply (quiet_trans w w2); assumption | exact Hg1].
  subst w3. unfold bind at 1.
  set (w4 := al_calls drv [AlSourcei i AL_BUFFER buf] (cleared w2)).
  assert (Hq4 : quiet w w4).
  { apply (quiet_trans w w2); [exact Hq2 |].
    apply (quiet_trans w2 (cleared w2)); [apply quiet_cleared |].
    apply quiet_call. reflexivity. }
  change (al_call drv (AlSourcei i AL_BUFFER buf) (cleared w2))
    with (Ok tt w4 : Result unit).
  cbv iota beta. unfold bind at 1.
  pose proof (checkALError_quiet drv "assigning buffer (clone)" w4) as Hg2.
  destruct (checkALError drv "assigning buffer (clone)" w4)
    as [u5 w5 | msg w5 | w5 |]; cbn [outcome] in *;
    [| apply (quiet_trans w w4); assumption
     | apply (quiet_trans w w4); assumption | exact Hg2].
  subst w5. unfold ret. cbn [outcome bufferID inst].
  split; [reflexivity |].
  split; [cbn; rewrite <- !app_assoc; reflexivity |].
  split; [reflexivity |].
  apply (quiet_trans w w4); [exact Hq4 | apply quiet_cleared].
Qed.

Lemma clone_ctor_outcome_witness :
  outcome
    (fun s w' =>
       bufferID s = 2 /\
       al_log w' = [AlGenSources (inst s); AlGetError;
                    AlSourcei (inst s) AL_BUFFER 2; AlGetError] /\
       al_error w' = AL_NO_ERROR /\ quiet (world_with_counter 1) w')
    (quiet (world_with_counter 1))
    (OpenAL_Sound_ctor_clone source_fault_driver 2 (Ptr 1 0)
       (world_with_counter 1)).
Proof.
  destruct (clone_ctor_outcome source_fault_driver 2 1%positive 1
              (world_with_counter 1)) as [_ Hlive].
  apply Hlive. vm_compute. reflexivity.
Defined.
